(** * Homebox image optimizer: a shallow embedding of
    [optimize_homebox_images.py] and the properties of its per-file
    conversion pipeline.

    The script walks a data directory, converts every image it finds to
    WebP under the same file name, and updates the [attachments] table of
    the Homebox database.  The embedding follows the script function by
    function.  The filesystem is a finite map from paths to file contents,
    the database is a list of rows with an open transaction, and Python
    exceptions are the [Raise] results of a small state-and-exception
    monad.  The libraries the script calls (Pillow, psycopg2, the operating
    system) are parameters: an interface [PIL] for the image primitives and
    a record [Env] that fixes which external operations fail.

    Three things are outside the model.  [main] is given the parsed command
    line: [parser.parse_args()] runs first and either returns it or ends
    the process.  Directories are not files: the creation of the backup
    directory is a call that succeeds or raises.  The log file that
    [setup_logging] opens is not a file of the filesystem map: what is
    written to it is the log lines of the trace. *)

From Stdlib Require Import ZArith Ascii.
From Stdlib Require Strings.Byte.
From stdpp Require Import base decidable option list gmap strings sorting.

Open Scope Z_scope.
Open Scope nat_scope.

Global Instance byte_eq_dec : EqDecision Byte.byte := Strings.Byte.byte_eq_dec.

(** ** Strings: the [str] methods the script relies on *)

Module Str.

(** [s.rfind('.')], with [None] for Python's [-1]. *)
Fixpoint rfind_dot (s : string) : option nat :=
  match s with
  | EmptyString => None
  | String c r =>
      match rfind_dot r with
      | Some i => Some (S i)
      | None => if Ascii.eqb c "."%char then Some 0 else None
      end
  end.

(** [s[n:]] *)
Fixpoint drop (n : nat) (s : string) : string :=
  match n, s with
  | 0, _ => s
  | S _, EmptyString => EmptyString
  | S n', String _ r => drop n' r
  end.

(** [s[:n]] *)
Fixpoint take (n : nat) (s : string) : string :=
  match n, s with
  | 0, _ => EmptyString
  | S _, EmptyString => EmptyString
  | S n', String c r => String c (take n' r)
  end.

Definition lower_char (c : ascii) : ascii :=
  let n := nat_of_ascii c in
  if (65 <=? n) && (n <=? 90) then ascii_of_nat (n + 32) else c.

(** [s.lower()] on ASCII text. *)
Fixpoint lower (s : string) : string :=
  match s with
  | EmptyString => EmptyString
  | String c r => String (lower_char c) (lower r)
  end.

(** ["/".join(l)] *)
Fixpoint join_slash (l : list string) : string :=
  match l with
  | [] => ""
  | [x] => x
  | x :: r => x +:+ "/" +:+ join_slash r
  end.

End Str.

(** ** Paths: [pathlib.PurePosixPath] *)

(** A path is its anchor (is it absolute?) and its components. *)
Record Path := mkPath { anchored : bool; parts : list string }.

Global Instance Path_eq_dec : EqDecision Path.
Proof. solve_decision. Defined.

Global Instance Path_countable : Countable Path.
Proof.
  refine (inj_countable' (λ p, (anchored p, parts p))
                         (λ x, mkPath x.1 x.2) _).
  by intros [].
Defined.

Module PathOps.

(** [p.name]: the final component, [''] when there is none. *)
Definition name (p : Path) : string := default "" (last (parts p)).

(** [p.suffix]: the part of the name from its last dot, provided the dot
    is neither the first nor the last character. *)
Definition suffix (p : Path) : string :=
  let n := name p in
  match Str.rfind_dot n with
  | Some i =>
      if (0 <? i) && (i <? String.length n - 1) then Str.drop i n else ""
  | None => ""
  end.

(** [p.with_suffix(sfx)]; [None] is the [ValueError] of an empty name. *)
Definition with_suffix (p : Path) (sfx : string) : option Path :=
  let n := name p in
  if decide (n = "") then None
  else
    let old := suffix p in
    let n' :=
      if decide (old = "") then n +:+ sfx
      else Str.take (String.length n - String.length old) n +:+ sfx in
    Some (mkPath (anchored p) (removelast (parts p) ++ [n'])).

(** [d / n] for a single component [n]. *)
Definition joinpath (d : Path) (n : string) : Path :=
  if decide (n = "") then d else mkPath (anchored d) (parts d ++ [n]).

Fixpoint is_prefix (l1 l2 : list string) : bool :=
  match l1, l2 with
  | [], _ => true
  | _ :: _, [] => false
  | x :: r1, y :: r2 => bool_decide (x = y) && is_prefix r1 r2
  end.

(** [p.relative_to(other)]; [None] is its [ValueError]. *)
Definition relative_to (p other : Path) : option Path :=
  if Bool.eqb (anchored p) (anchored other) && is_prefix (parts other) (parts p)
  then Some (mkPath false (List.skipn (length (parts other)) (parts p)))
  else None.

(** [str(p)] *)
Definition str (p : Path) : string :=
  match anchored p, parts p with
  | false, [] => "."
  | false, l => Str.join_slash l
  | true, l => "/" +:+ Str.join_slash l
  end.

(** [p] lies strictly below the directory [d]. *)
Definition below (d p : Path) : bool :=
  Bool.eqb (anchored p) (anchored d) && is_prefix (parts d) (parts p)
  && (length (parts d) <? length (parts p)).

End PathOps.

(** ** The image library (Pillow) as an interface *)

(** Pillow is not part of the script.  The script only needs an image type,
    the attributes [mode], [size] and [format], and four primitives.  Modes
    are Pillow's mode strings.  The three laws are the parts of Pillow's
    documented behaviour that the mode of a result depends on. *)
Class PIL := {
  Image : Type;
  img_mode : Image → string;
  img_size : Image → nat * nat;
  img_format : Image → string;
  (** [Image.new(mode, size, color)] *)
  Image_new : string → nat * nat → Z * Z * Z → Image;
  (** [dest.paste(src, mask=m)], as the image [dest] has become *)
  paste : Image → Image → option Image → Image;
  (** [img.split()[-1]] *)
  last_band : Image → Image;
  (** [img.convert(mode)] *)
  convert : Image → string → Image;
  mode_new : ∀ m sz c, img_mode (Image_new m sz c) = m;
  mode_paste : ∀ d s k, img_mode (paste d s k) = img_mode d;
  mode_convert : ∀ i m, img_mode (convert i m) = m
}.

Module Codec.
Section Normalize.
Context `{PIL}.

Definition white : Z * Z * Z := (255, 255, 255)%Z.

(** The colour-mode part of [convert_to_webp] (lines 81 to 90): the image
    that is handed to [img.save]. *)
Definition normalize (img : Image) : Image :=
  if bool_decide (img_mode img ∈ ["RGBA"; "LA"]) then
    let background := Image_new "RGB" (img_size img) white in
    if bool_decide (img_mode img = "RGBA")
    then paste background img (Some (last_band img))
    else paste background img None
  else if bool_decide (img_mode img ∉ ["RGB"; "L"]) then convert img "RGB"
  else img.

(** Pillow's modes that carry an alpha band. *)
Definition has_alpha (img : Image) : Prop :=
  img_mode img ∈ ["RGBA"; "LA"; "PA"; "RGBa"; "La"].

End Normalize.
End Codec.

(** ** The world the script runs in *)

(** Calls into the environment and lines written to the log, in the order
    they happen. *)
Inductive LogLine :=
  | LStarting
  | LProcessing (name : string)
  | LAlreadyWebp
  | LDbUpdated (name : string)
  | LDbUpdateFailed (name : string)
  | LConverted (original_size new_size : nat) (saved : Z)
  | LConversionFailedRestored
  | LErrorProcessing (p : Path)
  | LConvertFailed (p : Path)
  | LDbConnectionFailed
  | LDbUpdateError (p : Path)
  | LNoConnection
  | LScanning (p : Path)
  | LFound (n : nat)
  | LNoImages
  | LDryRun
  | LComplete
  | LSummaryConverted (n : nat)
  | LSummaryFailed (n : nat)
  | LSummarySaved (z : Z)
  | LBackupsStored (d : Path)
  | LCouldNotAnalyze (p : Path)
  | LCollection (total_size : nat)
  | LFormatDistribution
  | LFormat (fmt : string) (count : nat).

Inductive Event :=
  | EvOpenLog (p : Path)
  | EvMkdir (d : Path)
  | EvCopy (src dst : Path)
  | EvConvert (input output : Path)
  | EvMove (src dst : Path)
  | EvConnect
  | EvExecute (mime key : string)
  | EvCommit
  | EvRollback
  | EvClose
  | Log (l : LogLine).

Global Instance LogLine_eq_dec : EqDecision LogLine.
Proof. solve_decision. Defined.
Global Instance Event_eq_dec : EqDecision Event.
Proof. solve_decision. Defined.

(** The run statistics: the three counters of [main]. *)
Record Stats := mkStats {
  converted_count : nat;
  failed_count : nat;
  total_saved : Z
}.

(** One row of the [attachments] table: [(path, mime_type)]. *)
Definition Row : Type := string * string.

Record World := mkWorld {
  fs : gmap Path (list Byte.byte);   (* the files and their bytes, the log file apart *)
  db : list Row;                     (* the committed table *)
  txn : list Row;                    (* the table as the open transaction sees it *)
  txn_doomed : bool;                 (* the open transaction can no longer commit *)
  stats : Stats;
  trace : list Event
}.

Definition set_fs (f : gmap Path (list Byte.byte) → gmap Path (list Byte.byte))
    (w : World) : World :=
  mkWorld (f (fs w)) (db w) (txn w) (txn_doomed w) (stats w) (trace w).
Definition set_db (d : list Row) (w : World) : World :=
  mkWorld (fs w) d (txn w) (txn_doomed w) (stats w) (trace w).
Definition set_txn (t : list Row) (doomed : bool) (w : World) : World :=
  mkWorld (fs w) (db w) t doomed (stats w) (trace w).
Definition set_stats (f : Stats → Stats) (w : World) : World :=
  mkWorld (fs w) (db w) (txn w) (txn_doomed w) (f (stats w)) (trace w).
Definition add_event (e : Event) (w : World) : World :=
  mkWorld (fs w) (db w) (txn w) (txn_doomed w) (stats w) (trace w ++ [e]).
Definition add_events (evs : list Event) (w : World) : World :=
  mkWorld (fs w) (db w) (txn w) (txn_doomed w) (stats w) (trace w ++ evs).

(** ** Exceptions and state *)

Inductive Exn :=
  | FileNotFoundError | FileExistsError | SameFileError | OSError | ValueError
  | UnidentifiedImageError | DatabaseError | InterfaceError.

Inductive Res (A : Type) := Ok (a : A) | Raise (e : Exn).
Arguments Ok {A} a.
Arguments Raise {A} e.

Definition M (A : Type) : Type := World → Res A * World.

Definition bindM {A B} (m : M A) (f : A → M B) : M B := λ w,
  match m w with
  | (Ok a, w') => f a w'
  | (Raise e, w') => (Raise e, w')
  end.

Global Instance M_ret : MRet M := λ A a w, (Ok a, w).
Global Instance M_bind : MBind M := λ A B f m, bindM m f.

Notation "'do' x ← m ; k" := (bindM m (λ x, k))
  (at level 10, x name, m at level 100, k at level 200, only parsing).

Definition raise {A} (e : Exn) : M A := λ w, (Raise e, w).
Definition emit (e : Event) : M unit := λ w, (Ok tt, add_event e w).
Definition modify (f : World → World) : M unit := λ w, (Ok tt, f w).
Definition gets {A} (f : World → A) : M A := λ w, (Ok (f w), w).
(** [o] when it is a value, the exception [e] otherwise. *)
Definition of_option {A} (e : Exn) (o : option A) : M A :=
  match o with Some a => mret a | None => raise e end.
(** A primitive given by its effect on the world. *)
Definition prim {A} (f : World → Res A * World) : M A := f.

(** [try: body except Exception as e: handler]; what [body] did to the
    world before it raised stays done. *)
Definition try_except {A} (body : M A) (handler : Exn → M A) : M A := λ w,
  match body w with
  | (Ok a, w') => (Ok a, w')
  | (Raise e, w') => handler e w'
  end.

(** [for x in l: body x] *)
Fixpoint for_each {A} (l : list A) (body : A → M unit) : M unit :=
  match l with
  | [] => mret tt
  | x :: r => body x ;; for_each r body
  end.

(** ** The environment: which external operations fail, and how *)

Inductive EncodeResult :=
  | Encoded (b : list Byte.byte)
  (** [img.save] raised; [leftover] is what it left at the output path *)
  | EncodeFailed (leftover : option (list Byte.byte)).

Inductive DbFault :=
  | AtExecute   (* [cursor.execute] raises *)
  | AtCommit.   (* the statement runs, [conn.commit] raises *)

Global Instance DbFault_eq_dec : EqDecision DbFault.
Proof. solve_decision. Defined.

Record Env `{PIL} := mkEnv {
  (** [Image.open]: the image a file content decodes to, if it is one *)
  decode : list Byte.byte → option Image;
  (** [img.save(path, 'WebP', quality=q, method=m, optimize=True)] *)
  encode : Image → Z → Z → EncodeResult;
  (** [shutil.move src dst] raises an [OSError]; the inner option is the
      content the interrupted move has left at [dst], if it wrote any *)
  move_fault : Path → Path → option (option (list Byte.byte));
  (** [psycopg2.connect] succeeds *)
  connect_ok : bool;
  (** the failure of the update statement for a given key *)
  db_fault : string → option DbFault;
  (** [conn.cursor()] raises during the update of the given file: the
      connection is closed *)
  cursor_fault : Path → bool;
  (** [conn.rollback()] raises during the update of the given file: the
      connection is lost *)
  rollback_fault : Path → bool;
  (** [datetime.now().strftime("%Y%m%d_%H%M%S")] when logging is set up *)
  log_stamp : string;
  (** [logging.FileHandler] cannot open the log file *)
  logging_fault : bool;
  (** the exception of [d.mkdir(exist_ok=True)] when it raises: the parent
      is missing, a file has that name, the parent is not writable *)
  mkdir_fault : Path → option Exn
}.

(** ** The script *)

Definition SUPPORTED_FORMATS : list string :=
  [".jpg"; ".jpeg"; ".png"; ".gif"; ".bmp"; ".tiff"; ".tif"].
Definition TARGET_MIME : string := "image/webp".
Definition WEBP_QUALITY : Z := 85.
Definition WEBP_METHOD : Z := 6.

(** The command line, parsed. *)
Record Args := mkArgs {
  dry_run : bool;
  backup_dir_arg : option Path;
  quality : Z;
  skip_database : bool;
  data_path_arg : option Path
}.

Module Script.
Section WithEnv.
Context `{PIL} (env : Env).
(** The module-level constant [HOMEBOX_DATA_PATH]: imported from
    [config_private] when that module exists, a literal otherwise. *)
Variable HOMEBOX_DATA_PATH : Path.

Import PathOps.

(** *** Operating system and database primitives *)

(** [shutil.copy2(src, dst)].  It raises for a source that does not exist
    and for a destination that is the source; a copy that starts is taken
    to complete. *)
Definition copy2 (src dst : Path) : M Path :=
  emit (EvCopy src dst) ;;
  prim (λ w, match fs w !! src with
       | None => (Raise FileNotFoundError, w)
       | Some b =>
           if decide (src = dst) then (Raise SameFileError, w)
           else (Ok dst, set_fs (insert dst b) w)
       end).

(** [p.stat().st_size] *)
Definition stat_size (p : Path) : M nat :=
  prim (λ w, match fs w !! p with
       | None => (Raise FileNotFoundError, w)
       | Some b => (Ok (length b), w)
       end).

(** [shutil.move(src, dst)] *)
Definition shutil_move (src dst : Path) : M unit :=
  emit (EvMove src dst) ;;
  prim (λ w, match move_fault env src dst with
       | Some None => (Raise OSError, w)
       | Some (Some partial) => (Raise OSError, set_fs (insert dst partial) w)
       | None =>
           match fs w !! src with
           | None => (Raise FileNotFoundError, w)
           | Some b => (Ok tt, set_fs (λ f, <[dst:=b]> (delete src f)) w)
           end
       end).

Definition update_row (mime key : string) (r : Row) : Row :=
  if decide (r.1 = key) then (r.1, mime) else r.

(** [cursor.execute("UPDATE attachments SET mime_type = %s WHERE path = %s",
    (mime, key))], returning [cursor.rowcount]. *)
Definition execute_update (mime key : string) : M nat :=
  emit (EvExecute mime key) ;;
  prim (λ w, match db_fault env key with
       | Some AtExecute => (Raise DatabaseError, set_txn (txn w) true w)
       | fault =>
           (Ok (length (List.filter (λ r, bool_decide (r.1 = key)) (txn w))),
            set_txn (update_row mime key <$> txn w)
                    (bool_decide (fault = Some AtCommit)) w)
       end).

(** [conn.commit()] *)
Definition commit : M unit :=
  emit EvCommit ;;
  prim (λ w, if txn_doomed w then (Raise DatabaseError, w)
       else (Ok tt, set_db (txn w) w)).

(** [conn.cursor()], called for the update of [file_path]: a local call,
    which raises on a closed connection. *)
Definition cursor (file_path : Path) : M unit :=
  prim (λ w, if cursor_fault env file_path then (Raise InterfaceError, w)
       else (Ok tt, w)).

(** [conn.rollback()], called for the update of [file_path].  When it
    raises, the transaction stays as it is. *)
Definition rollback (file_path : Path) : M unit :=
  emit EvRollback ;;
  prim (λ w, if rollback_fault env file_path then (Raise DatabaseError, w)
       else (Ok tt, set_txn (db w) false w)).

(** *** [create_backup] *)
Definition create_backup (source_path backup_dir : Path) : M Path :=
  let backup_path := joinpath backup_dir (name source_path) in
  copy2 source_path backup_path ;;
  mret backup_path.

(** *** [convert_to_webp] *)
Definition convert_to_webp (input_path output_path : Path) (q : Z) : M bool :=
  emit (EvConvert input_path output_path) ;;
  try_except
    (prim (λ w, match fs w !! input_path with
          | None => (Raise FileNotFoundError, w)
          | Some b =>
              match decode env b with
              | None => (Raise UnidentifiedImageError, w)
              | Some img =>
                  match encode env (Codec.normalize img) q WEBP_METHOD with
                  | Encoded out => (Ok true, set_fs (insert output_path out) w)
                  | EncodeFailed None => (Raise OSError, w)
                  | EncodeFailed (Some part) =>
                      (Raise OSError, set_fs (insert output_path part) w)
                  end
              end
          end))
    (λ _, emit (Log (LConvertFailed input_path)) ;; mret false).

(** *** [get_database_connection]: [true] for a connection, [false] for
    [None].  A fresh connection sees the committed table. *)
Definition get_database_connection : M bool :=
  emit EvConnect ;;
  if connect_ok env then modify (λ w, set_txn (db w) false w) ;; mret true
  else emit (Log LDbConnectionFailed) ;; mret false.

(** *** [update_database_mime_type]

    The handler logs and rolls back; [conn.rollback()] is not guarded, so
    its exception leaves the function.  [cursor.close()] is local and has
    no effect here. *)
Definition update_database_mime_type (file_path : Path) (new_mime_type : string)
    : M bool :=
  try_except
    (cursor file_path ;;
     match relative_to file_path HOMEBOX_DATA_PATH with
     | None => raise ValueError
     | Some rel =>
         let db_path := "data/" +:+ str rel in
         do rows_affected ← execute_update new_mime_type db_path ;
         commit ;;
         mret (0 <? rows_affected)
     end)
    (λ _, emit (Log (LDbUpdateError file_path)) ;; rollback file_path ;;
          mret false).

(** *** [find_image_files] *)
Definition is_image_file (f : gmap Path (list Byte.byte)) (p : Path) : bool :=
  match f !! p with
  | None => false
  | Some b =>
      if bool_decide (Str.lower (suffix p) ∈ SUPPORTED_FORMATS) then true
      else if bool_decide (suffix p = "") then bool_decide (is_Some (decode env b))
      else false
  end.

Definition find_image_files (data_path : Path) : M (list Path) :=
  gets (λ w, List.filter (λ p, below data_path p && is_image_file (fs w) p)
                         (fst <$> map_to_list (fs w))).

(** *** [analyze_images]

    [analyze_from] is the loop of [analyze_images] with its two
    accumulators.  A file whose size cannot be read is reported and left
    out of both. *)
Definition format_of (img_path : Path) (content : list Byte.byte) : string :=
  if bool_decide (suffix img_path ≠ "") then Str.lower (suffix img_path)
  else
    match decode env content with
    | Some img => "." +:+ Str.lower (img_format img)
    | None => ".unknown"
    end.

Fixpoint analyze_from (image_files : list Path) (total_size : nat)
    (format_counts : gmap string nat) : M (nat * gmap string nat) :=
  match image_files with
  | [] => mret (total_size, format_counts)
  | img_path :: rest =>
      do content ← gets (λ w, fs w !! img_path) ;
      match content with
      | Some b =>
          let fmt := format_of img_path b in
          analyze_from rest (total_size + length b)
            (<[fmt := default 0 (format_counts !! fmt) + 1]> format_counts)
      | None =>
          emit (Log (LCouldNotAnalyze img_path)) ;;
          analyze_from rest total_size format_counts
      end
  end.

Definition analyze_images (image_files : list Path) : M (nat * gmap string nat) :=
  analyze_from image_files 0 ∅.

(** [sorted(format_counts.items())] *)
Definition sorted_items (format_counts : gmap string nat) : list (string * nat) :=
  merge_sort (λ a b, String.le a.1 b.1) (map_to_list format_counts).

(** *** The loop body of [main] (lines 241 to 283) *)
Definition incr_converted (saved : Z) : M unit :=
  modify (set_stats (λ s, mkStats (S (converted_count s)) (failed_count s)
                                  (total_saved s + saved))).
Definition incr_failed : M unit :=
  modify (set_stats (λ s, mkStats (converted_count s) (S (failed_count s))
                                  (total_saved s))).

Definition process_image (args : Args) (conn : bool) (backup_dir img_path : Path)
    : M unit :=
  try_except
    (emit (Log (LProcessing (name img_path))) ;;
     if bool_decide (Str.lower (suffix img_path) = ".webp") then
       emit (Log LAlreadyWebp)
     else
       do backup_path ← create_backup img_path backup_dir ;
       do original_size ← stat_size img_path ;
       do temp_webp ← of_option ValueError (with_suffix img_path ".webp.tmp") ;
       do ok ← convert_to_webp img_path temp_webp (quality args) ;
       if ok then
         do new_size ← stat_size temp_webp ;
         shutil_move temp_webp img_path ;;
         (if conn && negb (skip_database args) then
            do updated ← update_database_mime_type img_path TARGET_MIME ;
            if updated then emit (Log (LDbUpdated (name img_path)))
            else emit (Log (LDbUpdateFailed (name img_path)))
          else mret tt) ;;
         let saved := (Z.of_nat original_size - Z.of_nat new_size)%Z in
         incr_converted saved ;;
         emit (Log (LConverted original_size new_size saved))
       else
         incr_failed ;;
         shutil_move backup_path img_path ;;
         emit (Log LConversionFailedRestored))
    (λ _, incr_failed ;; emit (Log (LErrorProcessing img_path))).

(** *** [setup_logging]

    [logging.FileHandler] opens the log file in the current directory at
    once, and raises when it cannot. *)
Definition log_file : Path :=
  mkPath false ["homebox_optimization_" +:+ log_stamp env +:+ ".log"].

Definition setup_logging : M unit :=
  emit (EvOpenLog log_file) ;;
  prim (λ w, if logging_fault env then (Raise OSError, w) else (Ok tt, w)).

(** [d.mkdir(exist_ok=True)] *)
Definition mkdir (d : Path) : M unit :=
  emit (EvMkdir d) ;;
  prim (λ w, match mkdir_fault env d with
       | Some e => (Raise e, w)
       | None => (Ok tt, w)
       end).

(** *** [main], from line 197 on: [args] is what [parser.parse_args()] has
    returned.  An early [return] ends the computation; an exception of
    [setup_logging] or of [mkdir] leaves [main]. *)
Definition main (args : Args) : M unit :=
  let data_path := default HOMEBOX_DATA_PATH (data_path_arg args) in
  let backup_dir := default (mkPath false ["backups"]) (backup_dir_arg args) in
  setup_logging ;;
  emit (Log LStarting) ;;
  mkdir backup_dir ;;
  emit (Log (LScanning data_path)) ;;
  do image_files ← find_image_files data_path ;
  emit (Log (LFound (length image_files))) ;;
  if bool_decide (image_files = []) then emit (Log LNoImages)
  else
    do analysis ← analyze_images image_files ;
    emit (Log (LCollection analysis.1)) ;;
    emit (Log LFormatDistribution) ;;
    for_each (sorted_items analysis.2)
      (λ item, emit (Log (LFormat item.1 item.2))) ;;
    if dry_run args then emit (Log LDryRun)
    else
      do conn ← (if negb (skip_database args) then get_database_connection
                 else mret false) ;
      if negb (skip_database args) && negb conn then emit (Log LNoConnection)
      else
        modify (set_stats (λ _, mkStats 0 0 0)) ;;
        for_each image_files (process_image args conn backup_dir) ;;
        (if conn then emit EvClose else mret tt) ;;
        emit (Log LComplete) ;;
        do s ← gets stats ;
        emit (Log (LSummaryConverted (converted_count s))) ;;
        emit (Log (LSummaryFailed (failed_count s))) ;;
        emit (Log (LSummarySaved (total_saved s))) ;;
        if 0 <? converted_count s then emit (Log (LBackupsStored backup_dir))
        else mret tt.

End WithEnv.
End Script.

(** ** A reference model of the Pillow primitives

    Images of 8-bit grey or RGB data, with or without an alpha band, are
    rows of pixels, a pixel being the list of its band values; images with
    a palette, CMYK or 16-bit data are not represented.  [paste] follows
    [Image.paste]: the source is first brought to the mode of the
    destination, which drops its alpha band; without a mask it then
    replaces the destination, and with a mask each band is blended as in
    Pillow's [Paste.c], the mask value 0 keeping the destination and 255
    taking the source.  An image that Pillow creates has no format
    ([None], here the empty string). *)
Module RefPIL.

Record image := mkImage {
  mode : string;
  size : nat * nat;
  format : string;
  data : list (list Z)
}.

(** The colour bands of a pixel as RGB. *)
Definition rgb_of (px : list Z) : list Z :=
  match px with
  | [l] => [l; l; l]
  | [l; _] => [l; l; l]
  | r :: g :: b :: _ => [r; g; b]
  | [] => [0; 0; 0]
  end%Z.

(** Pillow's [DIV255]: the division by 255 rounded to nearest, for
    [0 ≤ a ≤ 255 * 255]. *)
Definition div255 (a : Z) : Z :=
  let tmp := (a + 128)%Z in Z.shiftr (Z.shiftr tmp 8 + tmp) 8.

(** Pillow's [BLEND]: [d] where the mask is 0, [s] where it is 255. *)
Definition blend (m s d : Z) : Z := div255 (d * (255 - m) + s * m)%Z.

Definition blend_px (m : list Z) (s d : list Z) : list Z :=
  let a := default 0%Z (head m) in
  zip_with (blend a) (rgb_of s) d.

Definition new (m : string) (sz : nat * nat) (c : Z * Z * Z) : image :=
  mkImage m sz "" (replicate (sz.1 * sz.2) [c.1.1; c.1.2; c.2]).

Definition paste_onto (d s : image) (mask : option image) : image :=
  mkImage (mode d) (size d) (format d)
    match mask with
    | None => rgb_of <$> data s
    | Some m =>
        zip_with (λ ms dp, blend_px ms.1 ms.2 dp) (zip (data m) (data s)) (data d)
    end.

Definition alpha_band (i : image) : image :=
  mkImage "L" (size i) "" ((λ px, [default 0%Z (last px)]) <$> data i).

(** [img.convert(m)] for [m = "RGB"], the only use the script makes of it:
    a grey value becomes three equal values and an alpha band is dropped. *)
Definition convert_to (i : image) (m : string) : image :=
  mkImage m (size i) "" (rgb_of <$> data i).

Global Instance pil : PIL := {|
  Image := image;
  img_mode := mode;
  img_size := size;
  img_format := format;
  Image_new := new;
  paste := paste_onto;
  last_band := alpha_band;
  convert := convert_to;
  mode_new := λ _ _ _, eq_refl;
  mode_paste := λ _ _ _, eq_refl;
  mode_convert := λ _ _, eq_refl
|}.

(** What the specification asks of a source with an alpha channel, said
    without Pillow: the source composited over an opaque white background.
    A colour value [c] under the alpha value [a] becomes
    [(c * a + 255 * (255 - a)) / 255], rounded to nearest. *)
Definition over_white (a c : Z) : Z :=
  ((2 * (c * a + 255 * (255 - a)) + 255) / 510)%Z.

Definition composited_over_white (i : image) : image :=
  mkImage "RGB" (size i) ""
    ((λ px, over_white (default 255%Z (last px)) <$> rgb_of px) <$> data i).

End RefPIL.

(** ** Sample images, environments and worlds *)
Module Samples.
Import RefPIL.

Definition data_root : Path := mkPath true ["var"; "homebox"].
Definition backups : Path := mkPath false ["backups"].

(** One pixel, black and fully transparent, as grey with alpha. *)
Definition la_pixel : Image := mkImage "LA" (1, 1) "PNG" [[0; 0]%Z].
(** One pixel, red and half transparent. *)
Definition rgba_pixel : Image := mkImage "RGBA" (1, 1) "PNG" [[255; 0; 0; 128]%Z].
(** One opaque pixel of a file that is already WebP. *)
Definition webp_pixel : Image := mkImage "RGB" (1, 1) "WEBP" [[1; 2; 3]%Z].

Definition jpeg_bytes : list Byte.byte := [Byte.xff; Byte.xd8; Byte.xff].
Definition jpeg_bytes' : list Byte.byte := [Byte.xff; Byte.xd8; Byte.x00; Byte.x01].
Definition webp_bytes : list Byte.byte := [Byte.x52; Byte.x49; Byte.x46; Byte.x46].
Definition junk_bytes : list Byte.byte := [Byte.x00].

(** Every file decodes to the WebP pixel; encoding it gives [webp_bytes]. *)
Definition env_ok : Env :=
  mkEnv _ (λ _, Some webp_pixel) (λ _ _ _, Encoded webp_bytes)
        (λ _ _, None) true (λ _, None)
        (λ _, false) (λ _, false) "20250801_120000" false (λ _, None).

(** No file decodes. *)
Definition env_codec_fails : Env :=
  mkEnv _ (λ _, None) (λ _ _ _, Encoded webp_bytes) (λ _ _, None) true (λ _, None)
        (λ _, false) (λ _, false) "20250801_120000" false (λ _, None).

(** Every move raises after it has truncated its destination. *)
Definition env_move_fails : Env :=
  mkEnv _ (λ _, Some webp_pixel) (λ _ _ _, Encoded webp_bytes)
        (λ _ _, Some (Some junk_bytes)) true (λ _, None)
        (λ _, false) (λ _, false) "20250801_120000" false (λ _, None).

(** The database cannot be reached. *)
Definition env_no_db : Env :=
  mkEnv _ (λ _, Some webp_pixel) (λ _ _ _, Encoded webp_bytes)
        (λ _ _, None) false (λ _, None)
        (λ _, false) (λ _, false) "20250801_120000" false (λ _, None).

(** Every statement raises. *)
Definition env_db_error : Env :=
  mkEnv _ (λ _, Some webp_pixel) (λ _ _ _, Encoded webp_bytes)
        (λ _ _, None) true (λ _, Some AtExecute)
        (λ _, false) (λ _, false) "20250801_120000" false (λ _, None).

Definition photo : Path := mkPath true ["var"; "homebox"; "docs"; "photo.jpg"].
Definition photo2 : Path := mkPath true ["var"; "homebox"; "other"; "photo.jpg"].
Definition uuid_file : Path := mkPath true ["var"; "homebox"; "docs"; "3f2a"].

Definition no_stats : Stats := mkStats 0 0 0.

Definition world_of (files : list (Path * list Byte.byte)) (rows : list Row) : World :=
  mkWorld (list_to_map files) rows rows false no_stats [].

Definition world_photo : World := world_of [(photo, jpeg_bytes)] [].
Definition world_photo_row : World :=
  world_of [(photo, jpeg_bytes)] [("data/docs/photo.jpg", "image/jpeg")].
Definition world_two_photos : World :=
  world_of [(photo, jpeg_bytes); (photo2, jpeg_bytes')] [].

Definition args_default : Args := mkArgs false None WEBP_QUALITY false None.
Definition args_no_db : Args := mkArgs false None WEBP_QUALITY true None.

(** [--data-path /mnt/hb], a directory outside [HOMEBOX_DATA_PATH]. *)
Definition other_root : Path := mkPath true ["mnt"; "hb"].
Definition args_other_root : Args :=
  mkArgs false None WEBP_QUALITY false (Some other_root).
Definition moved_photo : Path := mkPath true ["mnt"; "hb"; "docs"; "photo.jpg"].

(** [--data-path /var/homebox/docs], a directory inside [HOMEBOX_DATA_PATH]. *)
Definition sub_root : Path := mkPath true ["var"; "homebox"; "docs"].
Definition args_sub_root : Args :=
  mkArgs false None WEBP_QUALITY false (Some sub_root).

Definition photo_temp : Path :=
  mkPath true ["var"; "homebox"; "docs"; "photo.webp.tmp"].
Definition photo_backup : Path := mkPath false ["backups"; "photo.jpg"].
Definition uuid_temp : Path :=
  mkPath true ["var"; "homebox"; "docs"; "3f2a.webp.tmp"].
Definition uuid_backup : Path := mkPath false ["backups"; "3f2a"].

(** The codec fails and the restoring move raises after truncating. *)
Definition env_restore_fails : Env :=
  mkEnv _ (λ _, None) (λ _ _ _, Encoded webp_bytes)
        (λ _ _, Some (Some junk_bytes)) true (λ _, None)
        (λ _, false) (λ _, false) "20250801_120000" false (λ _, None).

(** The encoder raises after it has written part of its output. *)
Definition env_encoder_leaves_part : Env :=
  mkEnv _ (λ _, Some webp_pixel) (λ _ _ _, EncodeFailed (Some junk_bytes))
        (λ _ _, None) true (λ _, None)
        (λ _, false) (λ _, false) "20250801_120000" false (λ _, None).


(** The connection is lost while the store is updated: the statement
    raises, and so does the rollback. *)
Definition env_conn_lost : Env :=
  mkEnv _ (λ _, Some webp_pixel) (λ _ _ _, Encoded webp_bytes)
        (λ _ _, None) true (λ _, Some AtExecute)
        (λ _, false) (λ _, true) "20250801_120000" false (λ _, None).


(** The parent of the backup directory does not exist. *)
Definition env_no_backup_parent : Env :=
  mkEnv _ (λ _, Some webp_pixel) (λ _ _ _, Encoded webp_bytes)
        (λ _ _, None) true (λ _, None)
        (λ _, false) (λ _, false) "20250801_120000" false
        (λ _, Some FileNotFoundError).


(** The log file of the sample environments. *)
Definition sample_log : Path :=
  mkPath false ["homebox_optimization_20250801_120000.log"].

End Samples.

(** ** Notions the statements are written in *)

Module Notions.
Section WithEnv.
Context `{PIL} (env : Env) (root : Path) (args : Args) (conn : bool) (bdir : Path).

Import PathOps Script.

(** The loop of [main] over the discovered files. *)
Definition process_all (files : list Path) : M unit :=
  for_each files (process_image env root args conn bdir).

(** The codec fails on a file content: it does not decode, or the encoder
    raises. *)
Definition codec_fails (content : list Byte.byte) : Prop :=
  match decode env content with
  | None => True
  | Some img =>
      ∃ leftover,
        encode env (Codec.normalize img) (quality args) WEBP_METHOD
        = EncodeFailed leftover
  end.

(** What a failed encoding of a file content leaves at the output path. *)
Definition codec_leftover (content : list Byte.byte) : option (list Byte.byte) :=
  match decode env content with
  | None => None
  | Some img =>
      match encode env (Codec.normalize img) (quality args) WEBP_METHOD with
      | Encoded _ => None
      | EncodeFailed leftover => leftover
      end
  end.

(** Processing [p] in the world [w] counts it as converted. *)
Definition converted_here (p : Path) (w : World) : bool :=
  let w' := (process_image env root args conn bdir p w).2 in
  bool_decide (converted_count (stats w') = S (converted_count (stats w))).

(** The size in bytes of the file at [p] (0 when there is none). *)
Definition size_at (w : World) (p : Path) : Z :=
  Z.of_nat (length (default [] (fs w !! p))).

(** The sum, over the files of a run that are counted as converted, of the
    size of the file before its conversion minus its size after it. *)
Fixpoint bytes_saved (files : list Path) (w : World) : Z :=
  match files with
  | [] => 0
  | p :: rest =>
      let w' := (process_image env root args conn bdir p w).2 in
      ((if converted_here p w then size_at w p - size_at w' p else 0)
       + bytes_saved rest w')%Z
  end.

End WithEnv.

(** The files of a run that take the [Already WebP] branch. *)
Definition skipped_assets (files : list Path) : nat :=
  length (List.filter
            (λ p, bool_decide (Str.lower (PathOps.suffix p) = ".webp")) files).

(** Calls that back up, convert, swap or update the store. *)
Definition touches_asset (e : Event) : bool :=
  match e with
  | EvCopy _ _ | EvConvert _ _ | EvMove _ _ | EvExecute _ _ | EvCommit => true
  | _ => false
  end.

(** Lines of the log, as opposed to calls. *)
Definition is_log (e : Event) : bool :=
  match e with Log _ => true | _ => false end.

(** Calls that change the store. *)
Definition is_store_update (e : Event) : bool :=
  match e with
  | EvExecute _ _ | EvCommit => true
  | _ => false
  end.

(** The two calls of the set-up of [main]: opening the log file and
    creating the backup directory. *)
Definition is_setup_call (e : Event) : bool :=
  match e with
  | EvOpenLog _ | EvMkdir _ => true
  | _ => false
  end.

(** The lines that report on one file: its conversion, a conversion that
    returned [False], and an exception caught by the loop. *)
Definition is_converted_line (e : Event) : bool :=
  match e with Log (LConverted _ _ _) => true | _ => false end.

Definition is_failure_line (e : Event) : bool :=
  match e with
  | Log (LConvertFailed _) | Log (LErrorProcessing _) => true
  | _ => false
  end.

(** Lines of the log that do not report on a file. *)
Definition is_note (e : Event) : bool :=
  is_log e && negb (is_converted_line e) && negb (is_failure_line e).




End Notions.

(** Unfolding the script down to its effect on the world. *)
Ltac run_script :=
  unfold Notions.process_all, Script.process_image, Script.create_backup,
    Script.copy2, Script.stat_size, Script.shutil_move, Script.convert_to_webp,
    Script.update_database_mime_type, Script.execute_update, Script.commit,
    Script.rollback, Script.cursor, Script.incr_converted, Script.incr_failed,
    Script.get_database_connection, Script.find_image_files,
    Script.setup_logging, Script.mkdir,
    of_option, try_except, mbind, M_bind, mret, M_ret, bindM, emit, modify,
    gets, prim, raise.

(** One step of a run: the first action of a sequence returns, by [tac],
    and the sequence continues with its result. *)
Tactic Notation "step" "by" tactic(tac) :=
  lazymatch goal with
  | |- bindM ?m ?f ?w = _ =>
      let Hm := fresh "Hm" in
      eassert (m w = (Ok _, _)) as Hm by tac;
      unfold bindM at 1; rewrite Hm; clear Hm; cbv beta iota
  end.

(** Membership in a list that is written out. *)
Ltac in_list :=
  solve [repeat first [apply list_elem_of_here | apply list_elem_of_further]].

(** A written-out list does not hold an element. *)
Ltac not_in_list :=
  let Hin := fresh "Hin" in
  intros Hin;
  repeat (apply elem_of_cons in Hin as [Hin|Hin]; [discriminate Hin|]);
  by apply elem_of_nil in Hin.

(** ** Notions for whole runs *)

(** The calls to the database driver: [connect], [execute], [commit],
    [rollback] and [close]. *)
Definition is_db_call (e : Event) : bool :=
  match e with
  | EvConnect | EvExecute _ _ | EvCommit | EvRollback | EvClose => true
  | _ => false
  end.

(** A row after a run, against the row before: the same path, and the
    same type unless it has become [TARGET_MIME]. *)
Definition row_kept_or_webp (r r' : Row) : Prop :=
  r'.1 = r.1 ∧ (r'.2 = r.2 ∨ r'.2 = TARGET_MIME).

(** The events of the set-up of [main] (lines 197 to 205): the log file
    is opened, the first line is logged, the backup directory is made. *)
Definition setup_events `{PIL} (env : Env) (bdir : Path) : list Event :=
  [EvOpenLog (Script.log_file env); Log LStarting; EvMkdir bdir].

(** What [main] does after its loop (lines 286 to 296): it closes the
    connection if there is one and logs the summary. *)
Definition summary_events (conn : bool) (bdir : Path) (s : Stats) : list Event :=
  (if conn then [EvClose] else [])
  ++ [Log LComplete;
      Log (LSummaryConverted (converted_count s));
      Log (LSummaryFailed (failed_count s));
      Log (LSummarySaved (total_saved s))]
  ++ (if 0 <? converted_count s then [Log (LBackupsStored bdir)] else []).

(** The world in which the loop of [main] starts (lines 228 to 238), after
    the events [evs] of the set-up, of discovery and of the analysis: the
    connection is open on the committed table if there is one, and the
    counters are zero. *)
Definition loop_start (conn : bool) (evs : list Event) (w : World) : World :=
  set_stats (λ _, mkStats 0 0 0)
    (if conn then set_txn (db w) false (add_event EvConnect (add_events evs w))
     else add_events evs w).

(** Lookups in a filesystem that is written as inserts and deletes. *)
Ltac map_lookup :=
  repeat first [rewrite lookup_insert_eq
               |rewrite lookup_insert_ne by congruence
               |rewrite lookup_delete_ne by congruence];
  done.

(** * Properties *)

(** ** Strings and paths *)

Lemma length_append (a b : string) :
  String.length (a +:+ b) = String.length a + String.length b.
Proof. induction a; simpl; auto. Qed.

Lemma rfind_dot_lt s i : Str.rfind_dot s = Some i → i < String.length s.
Proof.
  revert i. induction s as [|c r IH]; intros i; simpl; [done|].
  destruct (Str.rfind_dot r) as [j|].
  - intros [= <-]. specialize (IH j eq_refl). lia.
  - destruct (Ascii.eqb c "."); [intros [= <-]; lia | done].
Qed.

Lemma rfind_dot_append a b j :
  Str.rfind_dot b = Some j → Str.rfind_dot (a +:+ b) = Some (String.length a + j).
Proof.
  intros Hb. induction a as [|c r IH]; simpl; [done|]. by rewrite IH.
Qed.

Lemma length_str_take i s : String.length (Str.take i s) = i `min` String.length s.
Proof. revert s. induction i; intros [|c r]; simpl; auto. Qed.

Lemma length_str_drop i s : String.length (Str.drop i s) = String.length s - i.
Proof. revert s. induction i; intros [|c r]; simpl; auto. Qed.

Lemma name_snoc a l n : PathOps.name (mkPath a (l ++ [n])) = n.
Proof. unfold PathOps.name; simpl. by rewrite last_snoc. Qed.

Lemma name_joinpath d n : n ≠ "" → PathOps.name (PathOps.joinpath d n) = n.
Proof. intros Hn. unfold PathOps.joinpath. case_decide; [done|]. apply name_snoc. Qed.

(** A suffix with a dot inside it always changes the name: the result of
    [with_suffix] never names the file it was derived from. *)
Lemma with_suffix_name p sfx t j :
  Str.rfind_dot sfx = Some (S j) →
  PathOps.with_suffix p sfx = Some t → PathOps.name t ≠ PathOps.name p.
Proof.
  intros Hs. unfold PathOps.with_suffix. case_decide as Hn; [done|].
  intros [= <-]. rewrite name_snoc. unfold PathOps.suffix.
  assert (∀ n : string, n +:+ sfx ≠ n) as Hlen.
  { intros n Heq. apply (f_equal String.length) in Heq.
    rewrite length_append in Heq. apply rfind_dot_lt in Hs. lia. }
  destruct (Str.rfind_dot (PathOps.name p)) as [i|] eqn:Hi; [|apply Hlen].
  pose proof (rfind_dot_lt _ _ Hi) as Hlt.
  destruct ((0 <? i) && (i <? String.length (PathOps.name p) - 1)); [|apply Hlen].
  case_decide as Hd; [apply Hlen|].
  rewrite length_str_drop. intros Heq.
  rewrite <-Heq in Hi at 1.
  rewrite (rfind_dot_append _ _ _ Hs), length_str_take in Hi.
  injection Hi. lia.
Qed.

Lemma temp_name_differs p t :
  PathOps.with_suffix p ".webp.tmp" = Some t → PathOps.name t ≠ PathOps.name p.
Proof. by apply (with_suffix_name p ".webp.tmp" t 4). Qed.

(** ** The codec's colour modes *)

Section CodecProperties.
Context `{PIL}.
Import Codec.

(** The image handed to the encoder has mode RGB or L. *)
Lemma normalize_mode img :
  img_mode (normalize img) = "RGB" ∨ img_mode (normalize img) = "L".
Proof.
  unfold normalize.
  repeat case_bool_decide; rewrite ?mode_paste, ?mode_new, ?mode_convert; auto.
  match goal with Hin : _ ∈ ["RGB"; "L"] |- _ =>
    rewrite !elem_of_cons, elem_of_nil in Hin; tauto
  end.
Qed.

End CodecProperties.

(** C6 (the script at the failing input).  The image handed to the encoder
    always has mode RGB or L, and a half-transparent RGBA pixel comes out
    composited over white.  A grey image with alpha has an alpha channel
    too, yet its black and fully transparent pixel comes out black where
    compositing over white gives white: the LA branch creates the white
    background and then pastes without a mask. *)
Theorem la_image_is_not_composited :
  (∀ `{PIL} (img : Image),
     img_mode (Codec.normalize img) = "RGB" ∨ img_mode (Codec.normalize img) = "L")
  ∧ Codec.normalize Samples.rgba_pixel
    = RefPIL.composited_over_white Samples.rgba_pixel
  ∧ Codec.has_alpha Samples.la_pixel
  ∧ Codec.normalize Samples.la_pixel
    = RefPIL.mkImage "RGB" (1, 1) "" [[0; 0; 0]%Z]
  ∧ RefPIL.composited_over_white Samples.la_pixel
    = RefPIL.mkImage "RGB" (1, 1) "" [[255; 255; 255]%Z].
Proof.
  split; [intros; apply normalize_mode|].
  split; [vm_compute; reflexivity|].
  split; [unfold Codec.has_alpha; simpl; in_list|].
  split; vm_compute; reflexivity.
Qed.

(** ** Running the monad *)

Lemma bindM_ok {A B} (m : M A) (f : A → M B) w a w' :
  m w = (Ok a, w') → bindM m f w = f a w'.
Proof. intros Hm. unfold bindM. by rewrite Hm. Qed.

Lemma bindM_raise {A B} (m : M A) (f : A → M B) w e w' :
  m w = (Raise e, w') → bindM m f w = (Raise e, w').
Proof. intros Hm. unfold bindM. by rewrite Hm. Qed.

Lemma try_except_ok {A} (m : M A) h w a w' :
  m w = (Ok a, w') → try_except m h w = (Ok a, w').
Proof. intros Hm. unfold try_except. by rewrite Hm. Qed.

Lemma emit_if (b : bool) (e1 e2 : Event) w :
  (if b then emit e1 else emit e2) w = (Ok tt, add_event (if b then e1 else e2) w).
Proof. by destruct b. Qed.

Lemma emit_opt (b : bool) (e : Event) w :
  (if b then emit e else mret tt) w = (Ok tt, if b then add_event e w else w).
Proof. by destruct b. Qed.

Lemma try_except_raise {A} (m : M A) h w e w' :
  m w = (Raise e, w') → try_except m h w = h e w'.
Proof. intros Hm. unfold try_except. by rewrite Hm. Qed.

Section PipelineProperties.
Context `{PIL} (env : Env) (root : Path) (args : Args) (conn : bool) (bdir : Path).
Import PathOps Script Notions.

Lemma create_backup_ok p b w :
  fs w !! p = Some b → joinpath bdir (name p) ≠ p →
  create_backup p bdir w =
  (Ok (joinpath bdir (name p)),
   set_fs (insert (joinpath bdir (name p)) b)
          (add_event (EvCopy p (joinpath bdir (name p))) w)).
Proof.
  intros Hp Hne. run_script. simpl. rewrite Hp.
  by destruct (decide (p = joinpath bdir (name p))).
Qed.

Lemma stat_size_ok p b w : fs w !! p = Some b → stat_size p w = (Ok (length b), w).
Proof. intros Hp. run_script. by rewrite Hp. Qed.

Lemma shutil_move_ok src dst b w :
  move_fault env src dst = None → fs w !! src = Some b →
  shutil_move env src dst w =
  (Ok tt, set_fs (λ f, <[dst:=b]> (delete src f)) (add_event (EvMove src dst) w)).
Proof. intros Hm Hs. run_script. simpl. by rewrite Hm, Hs. Qed.

Lemma shutil_move_fault src dst left w :
  move_fault env src dst = Some left →
  shutil_move env src dst w =
  (Raise OSError,
   set_fs (λ f, from_option (λ part, <[dst:=part]> f) f left)
          (add_event (EvMove src dst) w)).
Proof.
  intros Hm. run_script. simpl. rewrite Hm.
  destruct left; [done|]. by destruct w.
Qed.

Lemma convert_to_webp_ok i o content img out w :
  fs w !! i = Some content → decode env content = Some img →
  encode env (Codec.normalize img) (quality args) WEBP_METHOD = Encoded out →
  convert_to_webp env i o (quality args) w =
  (Ok true, set_fs (insert o out) (add_event (EvConvert i o) w)).
Proof. intros Hi Hd He. run_script. simpl. by rewrite Hi, Hd, He. Qed.

Lemma convert_to_webp_fails i o content w :
  fs w !! i = Some content → codec_fails env args content →
  convert_to_webp env i o (quality args) w =
  (Ok false,
   add_event (Log (LConvertFailed i))
     (set_fs (λ f, from_option (λ part, <[o:=part]> f) f
                     (codec_leftover env args content))
             (add_event (EvConvert i o) w))).
Proof.
  intros Hi Hc. unfold codec_fails, codec_leftover in *. run_script. simpl.
  rewrite Hi. destruct (decode env content) as [img|].
  - destruct Hc as [left ->]. destruct left; [done|]. by destruct w.
  - by destruct w.
Qed.

(** When the codec fails on an asset and the restoring move succeeds, the
    asset is counted as failed once and not as converted, the restore from
    the backup leaves the bytes at its path as they were, and no statement
    is sent to the store. *)
Lemma codec_failure_restores p content w :
  fs w !! p = Some content →
  Str.lower (suffix p) ≠ ".webp" →
  name p ≠ "" →
  joinpath bdir (name p) ≠ p →
  codec_fails env args content →
  move_fault env (joinpath bdir (name p)) p = None →
  let w' := (process_image env root args conn bdir p w).2 in
  converted_count (stats w') = converted_count (stats w)
  ∧ failed_count (stats w') = S (failed_count (stats w))
  ∧ total_saved (stats w') = total_saved (stats w)
  ∧ fs w' !! p = Some content
  ∧ db w' = db w ∧ txn w' = txn w
  ∧ ∃ evs, trace w' = trace w ++ evs
           ∧ Forall (λ e, is_store_update e = false) evs
           ∧ EvMove (joinpath bdir (name p)) p ∈ evs.
Proof.
  intros Hp Hs Hn Hbp Hc Hm.
  destruct (with_suffix p ".webp.tmp") as [t|] eqn:Ht; cycle 1.
  { unfold with_suffix in Ht. by case_decide. }
  assert (t ≠ joinpath bdir (name p)) as Htb.
  { intros ->. apply temp_name_differs in Ht. by rewrite name_joinpath in Ht. }
  set (bp := joinpath bdir (name p)) in *.
  unfold process_image. unfold mbind, M_bind. cbv beta.
  erewrite try_except_ok; cycle 1.
  { step by reflexivity.
    rewrite bool_decide_false by done.
    step by (apply create_backup_ok; [exact Hp|exact Hbp]).
    fold bp.
    step by (apply stat_size_ok; simpl; rewrite lookup_insert_ne by done; exact Hp).
    rewrite Ht. step by reflexivity.
    step by (apply (convert_to_webp_fails p t content); [|exact Hc];
             simpl; rewrite lookup_insert_ne by done; exact Hp).
    step by reflexivity.
    erewrite bindM_ok; [reflexivity|].
    apply shutil_move_ok with (b := content); [done|]. simpl.
    destruct (codec_leftover env args content); simpl;
      rewrite ?lookup_insert_ne by done; apply lookup_insert_eq. }
  simpl. rewrite lookup_insert_eq. repeat split; try done.
  eexists. rewrite <-!app_assoc. split; [done|].
  split; [by repeat constructor|in_list].
Qed.

Lemma try_except_returns (m : M unit) h w :
  (∀ e w1, (h e w1).1 = Ok tt) → (try_except m h w).1 = Ok tt.
Proof.
  intros Hh. unfold try_except. destruct (m w) as [[[]|e] w1]; [done|apply Hh].
Qed.

Lemma process_image_returns p w :
  (process_image env root args conn bdir p w).1 = Ok tt.
Proof. apply try_except_returns. done. Qed.

Lemma process_all_cons p rest w :
  (process_all env root args conn bdir (p :: rest) w).2 =
  (process_all env root args conn bdir rest
     (process_image env root args conn bdir p w).2).2.
Proof.
  unfold process_all. simpl. unfold mbind, M_bind, bindM.
  pose proof (process_image_returns p w) as Hr.
  destruct (process_image env root args conn bdir p w) as [[[]|e] w'];
    simpl in *; done.
Qed.

Lemma process_all_returns files w :
  (process_all env root args conn bdir files w).1 = Ok tt.
Proof.
  revert w. induction files as [|p rest IH]; intros w; [done|].
  unfold process_all in *. simpl. unfold mbind, M_bind, bindM.
  pose proof (process_image_returns p w) as Hr.
  destruct (process_image env root args conn bdir p w) as [[[]|e] w'];
    simpl in *; [apply IH|done].
Qed.

(** The Already-WebP branch changes nothing but the log. *)
Lemma webp_suffix_skipped p w :
  Str.lower (suffix p) = ".webp" →
  process_image env root args conn bdir p w =
  (Ok tt, add_event (Log LAlreadyWebp) (add_event (Log (LProcessing (name p))) w)).
Proof. intros Hs. run_script. simpl. by rewrite bool_decide_true. Qed.

(** Discovery never yields a file with the suffix [.webp]. *)
Lemma discovered_not_webp f p :
  is_image_file env f p = true → Str.lower (suffix p) ≠ ".webp".
Proof.
  unfold is_image_file. destruct (f !! p); [|done].
  case_bool_decide as Hin.
  - intros _ Heq. rewrite Heq in Hin. unfold SUPPORTED_FORMATS in Hin.
    rewrite !elem_of_cons, elem_of_nil in Hin. intuition discriminate.
  - case_bool_decide as He; [|done]. intros _. by rewrite He.
Qed.

(** What a metadata update does when neither [conn.cursor()] nor
    [conn.rollback()] raises, case by case. *)
Lemma update_outcome p mime w :
  cursor_fault env p = false → rollback_fault env p = false →
  ∃ updated w',
    update_database_mime_type env root p mime w = (Ok updated, w')
    ∧ fs w' = fs w ∧ stats w' = stats w
    ∧ match relative_to p root with
      | Some rel =>
          let key := "data/" +:+ str rel in
          match db_fault env key with
          | None =>
              updated
              = (0 <? length (List.filter (λ r, bool_decide (r.1 = key)) (txn w)))
              ∧ db w' = update_row mime key <$> txn w
              ∧ txn w' = db w'
              ∧ trace w' = trace w ++ [EvExecute mime key; EvCommit]
          | Some AtExecute =>
              updated = false ∧ db w' = db w ∧ txn w' = db w
              ∧ trace w'
                = trace w ++ [EvExecute mime key; Log (LDbUpdateError p); EvRollback]
          | Some AtCommit =>
              updated = false ∧ db w' = db w ∧ txn w' = db w
              ∧ trace w'
                = trace w ++ [EvExecute mime key; EvCommit;
                              Log (LDbUpdateError p); EvRollback]
          end
      | None =>
          updated = false ∧ db w' = db w ∧ txn w' = db w
          ∧ trace w' = trace w ++ [Log (LDbUpdateError p); EvRollback]
      end.
Proof.
  intros Hcur Hrb. run_script. simpl. rewrite Hcur.
  destruct (relative_to p root) as [rel|]; simpl.
  - destruct (db_fault env ("data/" +:+ str rel)) as [[]|]; simpl;
      rewrite ?Hrb; simpl;
      eexists _, _; repeat split; simpl; rewrite <-?app_assoc; done.
  - rewrite Hrb. simpl.
    eexists _, _. repeat split; simpl; rewrite <-?app_assoc; done.
Qed.

(** When something raises inside the update and [conn.rollback()] raises
    as well, the exception leaves [update_database_mime_type]: nothing is
    returned, and the store is as it was. *)
Lemma update_escapes p mime w :
  rollback_fault env p = true →
  cursor_fault env p = true
  ∨ match relative_to p root with
    | Some rel => is_Some (db_fault env ("data/" +:+ str rel))
    | None => True
    end →
  ∃ w',
    update_database_mime_type env root p mime w = (Raise DatabaseError, w')
    ∧ fs w' = fs w ∧ db w' = db w ∧ stats w' = stats w
    ∧ last (trace w') = Some EvRollback.
Proof.
  intros Hrb Hcause. run_script. simpl.
  destruct (cursor_fault env p) eqn:Hcur; simpl.
  { rewrite Hrb. simpl. eexists. repeat split. simpl. apply last_snoc. }
  destruct Hcause as [?|Hcause]; [done|].
  destruct (relative_to p root) as [rel|]; simpl.
  - destruct Hcause as [fault Hfault]. rewrite Hfault.
    destruct fault; simpl; rewrite Hrb; simpl;
      eexists; repeat split; simpl; apply last_snoc.
  - rewrite Hrb. simpl. eexists. repeat split. simpl. apply last_snoc.
Qed.

(** For an asset whose file has been swapped, the metadata update runs on
    the swapped world before anything is counted.  When neither
    [conn.cursor()] nor [conn.rollback()] raises, it commits when the
    statement and the commit succeed, and it rolls back on any error: a
    path outside the data root, a failing statement or a failing commit.
    With no matching row it returns [false] without an error.  Whatever it
    returns, the asset is then counted as converted, after the line that
    reports the update or warns of its failure. *)
Lemma metadata_update_then_count p content img out t w :
  conn = true → skip_database args = false →
  cursor_fault env p = false → rollback_fault env p = false →
  fs w !! p = Some content →
  Str.lower (suffix p) ≠ ".webp" →
  joinpath bdir (name p) ≠ p →
  with_suffix p ".webp.tmp" = Some t →
  decode env content = Some img →
  encode env (Codec.normalize img) (quality args) WEBP_METHOD = Encoded out →
  move_fault env t p = None →
  let w' := (process_image env root args conn bdir p w).2 in
  ∃ w_swapped updated w_synced,
    fs w_swapped !! p = Some out ∧ db w_swapped = db w
    ∧ txn w_swapped = txn w ∧ stats w_swapped = stats w
    ∧ update_database_mime_type env root p TARGET_MIME w_swapped
      = (Ok updated, w_synced)
    ∧ match relative_to p root with
      | Some rel =>
          let key := "data/" +:+ str rel in
          match db_fault env key with
          | None =>
              updated = (0 <? length (List.filter (λ r, bool_decide (r.1 = key)) (txn w)))
              ∧ db w_synced = update_row TARGET_MIME key <$> txn w
              ∧ txn w_synced = db w_synced
              ∧ trace w_synced = trace w_swapped ++ [EvExecute TARGET_MIME key; EvCommit]
          | Some _ =>
              updated = false ∧ db w_synced = db w ∧ txn w_synced = db w
              ∧ last (trace w_synced) = Some EvRollback
          end
      | None =>
          updated = false ∧ db w_synced = db w ∧ txn w_synced = db w
          ∧ last (trace w_synced) = Some EvRollback
      end
    ∧ stats w_synced = stats w
    ∧ converted_count (stats w') = S (converted_count (stats w))
    ∧ failed_count (stats w') = failed_count (stats w)
    ∧ fs w' !! p = Some out ∧ db w' = db w_synced ∧ txn w' = txn w_synced
    ∧ trace w' =
      trace w_synced
      ++ [Log (if updated then LDbUpdated (name p) else LDbUpdateFailed (name p));
          Log (LConverted (length content) (length out)
                 (Z.of_nat (length content) - Z.of_nat (length out)))].
Proof.
  intros -> Hskip Hcur Hrb Hp Hs Hbp Ht Hd He Hm.
  set (bp := joinpath bdir (name p)) in *.
  set (w_sw :=
    set_fs (λ f, <[p:=out]> (delete t f))
      (add_event (EvMove t p)
        (set_fs (insert t out)
          (add_event (EvConvert p t)
            (set_fs (insert bp content)
              (add_event (EvCopy p bp)
                (add_event (Log (LProcessing (name p))) w))))))).
  destruct (update_outcome p TARGET_MIME w_sw Hcur Hrb)
    as (updated & w_sy & Hup & Hfs & Hst & Hcases).
  exists w_sw, updated, w_sy.
  assert (process_image env root args true bdir p w =
    (Ok tt,
     add_event (Log (LConverted (length content) (length out)
                       (Z.of_nat (length content) - Z.of_nat (length out))))
       (set_stats (λ s, mkStats (S (converted_count s)) (failed_count s)
                          (total_saved s + (Z.of_nat (length content)
                                            - Z.of_nat (length out))))
          (add_event (Log (if updated then LDbUpdated (name p)
                           else LDbUpdateFailed (name p))) w_sy)))) as Hrun.
  { unfold process_image. unfold mbind, M_bind. cbv beta.
    apply try_except_ok.
    step by reflexivity.
    rewrite bool_decide_false by done.
    step by (apply create_backup_ok; [exact Hp|exact Hbp]).
    fold bp.
    step by (apply stat_size_ok; simpl; rewrite lookup_insert_ne by done; exact Hp).
    rewrite Ht. step by reflexivity.
    step by (apply (convert_to_webp_ok p t content img out); [|done..];
             simpl; rewrite lookup_insert_ne by done; exact Hp).
    step by (apply (stat_size_ok t out); simpl; apply lookup_insert_eq).
    step by (apply (shutil_move_ok t p out); [done|simpl; apply lookup_insert_eq]).
    rewrite Hskip. simpl andb. cbv iota.
    fold w_sw.
    step by (erewrite bindM_ok; [|exact Hup]; cbv beta iota; apply emit_if).
    step by reflexivity.
    by destruct updated. }
  rewrite Hrun. simpl.
  split; [apply lookup_insert_eq|].
  do 3 (split; [done|]).
  split; [done|].
  split.
  { destruct (relative_to p root) as [rel|]; [|destruct Hcases as (?&?&?&->)].
    - cbv zeta in *. destruct (db_fault env ("data/" +:+ str rel)) as [[]|];
        try done; destruct Hcases as (?&?&?&->); repeat split; try done;
        by rewrite last_app.
    - repeat split; try done. by rewrite last_app. }
  rewrite Hst. simpl. rewrite Hfs. simpl.
  repeat split; try done.
  - apply lookup_insert_eq.
  - by rewrite <-app_assoc.
Qed.



Lemma process_all_run files w :
  process_all env root args conn bdir files w =
  (Ok tt, (process_all env root args conn bdir files w).2).
Proof.
  pose proof (process_all_returns files w) as Hr.
  destruct (process_all env root args conn bdir files w) as [r w']. simpl in *.
  by rewrite Hr.
Qed.

Lemma process_image_saved p w :
  let w' := (process_image env root args conn bdir p w).2 in
  (converted_count (stats w') = converted_count (stats w)
   ∧ total_saved (stats w') = total_saved (stats w))
  ∨ (converted_count (stats w') = S (converted_count (stats w))
     ∧ total_saved (stats w')
       = (total_saved (stats w) + (size_at w p - size_at w' p))%Z).
Proof.
  unfold size_at. run_script. simpl.
  repeat (case_match; simplify_eq/=; try (left; done)).
  all: right; split; [done|]; simplify_map_eq; done.
Qed.

Lemma total_saved_accumulates files w :
  let w' := (process_all env root args conn bdir files w).2 in
  total_saved (stats w') = (total_saved (stats w) + bytes_saved env root args conn bdir files w)%Z.
Proof.
  revert w. induction files as [|p rest IH]; intros w.
  - simpl. lia.
  - cbv zeta. rewrite process_all_cons. cbv zeta in IH. rewrite IH.
    simpl bytes_saved. unfold converted_here.
    destruct (process_image_saved p w) as [[Hc Ht]|[Hc Ht]]; rewrite Ht.
    + rewrite bool_decide_false by lia. lia.
    + rewrite bool_decide_true by done. lia.
Qed.

End PipelineProperties.

(** The codec failing on a sample photo: counted as failed, bytes restored. *)
Lemma codec_failure_restores_witness :
  fs Samples.world_photo !! Samples.photo = Some Samples.jpeg_bytes
  ∧ failed_count
      (stats (Script.process_image Samples.env_codec_fails Samples.data_root
                Samples.args_no_db false Samples.backups Samples.photo
                Samples.world_photo).2) = 1
  ∧ fs (Script.process_image Samples.env_codec_fails Samples.data_root
          Samples.args_no_db false Samples.backups Samples.photo
          Samples.world_photo).2 !! Samples.photo
    = Some Samples.jpeg_bytes.
Proof.
  split; [vm_compute; reflexivity|].
  destruct (codec_failure_restores Samples.env_codec_fails Samples.data_root
              Samples.args_no_db false Samples.backups Samples.photo
              Samples.jpeg_bytes Samples.world_photo)
    as (_ & Hfailed & _ & Hfs & _).
  - vm_compute. reflexivity.
  - vm_compute. discriminate.
  - vm_compute. discriminate.
  - vm_compute. discriminate.
  - exact I.
  - reflexivity.
  - split; [exact Hfailed|exact Hfs].
Defined.

(** A sample photo with its row in the store: converted and updated. *)
Lemma metadata_update_then_count_witness :
  converted_count
    (stats (Script.process_image Samples.env_ok Samples.data_root
              Samples.args_default true Samples.backups Samples.photo
              Samples.world_photo_row).2) = 1
  ∧ db (Script.process_image Samples.env_ok Samples.data_root
          Samples.args_default true Samples.backups Samples.photo
          Samples.world_photo_row).2
    = [("data/docs/photo.jpg", "image/webp")].
Proof.
  destruct (metadata_update_then_count Samples.env_ok Samples.data_root
              Samples.args_default true Samples.backups Samples.photo
              Samples.jpeg_bytes Samples.webp_pixel Samples.webp_bytes
              Samples.photo_temp Samples.world_photo_row)
    as (w_sw & updated & w_sy & _ & _ & _ & _ & _ & Hcase & _ & Hcount & _
        & _ & Hdb & _).
  - reflexivity.
  - reflexivity.
  - reflexivity.
  - reflexivity.
  - vm_compute. reflexivity.
  - vm_compute. discriminate.
  - vm_compute. discriminate.
  - vm_compute. reflexivity.
  - reflexivity.
  - reflexivity.
  - reflexivity.
  - split; [exact Hcount|].
    vm_compute in Hcase. destruct Hcase as (_ & Hd & _).
    exact (eq_trans Hdb Hd).
Defined.


(** ** The run as a whole *)

Lemma add_events_nil w : add_events [] w = w.
Proof. destruct w. unfold add_events. simpl. by rewrite app_nil_r. Qed.

Lemma add_events_cons e evs w :
  add_events evs (add_event e w) = add_events (e :: evs) w.
Proof. unfold add_events, add_event. simpl. by rewrite <-app_assoc. Qed.

Lemma add_events_app evs1 evs2 w :
  add_events evs2 (add_events evs1 w) = add_events (evs1 ++ evs2) w.
Proof. unfold add_events. simpl. by rewrite app_assoc. Qed.

Lemma for_each_emit {A} (l : list A) (g : A → Event) w :
  for_each l (λ x, emit (g x)) w = (Ok tt, add_events (g <$> l) w).
Proof.
  revert w. induction l as [|x r IH]; intros w; simpl.
  - by rewrite add_events_nil.
  - unfold mbind, M_bind, bindM, emit. rewrite IH. by rewrite add_events_cons.
Qed.



Lemma is_note_log e : Notions.is_note e = true → Notions.is_log e = true.
Proof. by destruct e. Qed.

Section LoopReport.
Context `{PIL} (env : Env) (root : Path) (args : Args) (conn : bool) (bdir : Path).
Import PathOps Script Notions.

End LoopReport.

Section MainProperties.
Context `{PIL} (env : Env) (root : Path) (args : Args).
Import PathOps Script Notions.

Lemma find_image_files_run d w files evs :
  (find_image_files env d w).1 = Ok files →
  find_image_files env d (add_events evs w) = (Ok files, add_events evs w).
Proof.
  unfold find_image_files, gets. simpl. by intros [= ->].
Qed.

(** The analysis only writes notes to the log. *)
Lemma analyze_from_run files total counts w :
  ∃ r evs,
    analyze_from env files total counts w = (Ok r, add_events evs w)
    ∧ Forall (λ e, is_note e = true) evs.
Proof.
  revert total counts w. induction files as [|p rest IH]; intros total counts w.
  - exists (total, counts), []. by rewrite add_events_nil.
  - simpl. unfold bindM, gets. destruct (fs w !! p) as [b|].
    + apply IH.
    + unfold mbind, M_bind, bindM, emit.
      destruct (IH total counts (add_event (Log (LCouldNotAnalyze p)) w))
        as (r & evs & -> & Hlog).
      exists r, (Log (LCouldNotAnalyze p) :: evs).
      rewrite add_events_cons. split; [done|]. by constructor.
Qed.

(** [main] from the scan to the dry-run test: discovery and analysis. *)
Lemma main_scan_logs w files :
  (find_image_files env (default root (data_path_arg args)) w).1 = Ok files →
  files ≠ [] →
  ∃ evs,
    Forall (λ e, is_note e = true) evs
    ∧ ∀ (rest : list Path → M unit),
        bindM (emit (Log (LScanning (default root (data_path_arg args)))))
          (λ _, bindM (find_image_files env (default root (data_path_arg args)))
             (λ image_files,
                bindM (emit (Log (LFound (length image_files))))
                  (λ _, if bool_decide (image_files = []) then emit (Log LNoImages)
                        else
                          bindM (analyze_images env image_files)
                            (λ analysis,
                               bindM (emit (Log (LCollection analysis.1)))
                                 (λ _, bindM (emit (Log LFormatDistribution))
                                    (λ _, bindM
                                            (for_each (sorted_items analysis.2)
                                               (λ item,
                                                  emit (Log (LFormat item.1 item.2))))
                                       (λ _, rest image_files))))))) w
        = rest files (add_events evs w).
Proof.
  intros Hf Hne.
  set (w2 := add_event (Log (LFound (length files)))
               (add_event (Log (LScanning (default root (data_path_arg args)))) w)).
  destruct (analyze_from_run files 0 ∅ w2) as ([total counts] & evs & Hrun & Hlog).
  exists (Log (LScanning (default root (data_path_arg args)))
          :: Log (LFound (length files))
          :: evs
          ++ Log (LCollection total) :: Log LFormatDistribution
          :: ((λ item, Log (LFormat item.1 item.2)) <$> sorted_items counts)).
  split.
  - repeat (apply Forall_cons; split; [done|]).
    apply Forall_app. split; [done|].
    repeat (apply Forall_cons; split; [done|]).
    apply Forall_fmap, Forall_true. done.
  - intros rest.
    step by reflexivity.
    step by (apply (find_image_files_run _ _ _ [_]); exact Hf).
    step by reflexivity.
    rewrite bool_decide_false by done.
    step by exact Hrun.
    step by reflexivity.
    step by reflexivity.
    step by apply for_each_emit.
    f_equal. unfold w2, add_events, add_event.
    cbn [fs db txn txn_doomed stats trace fst snd].
    f_equal. rewrite <-!app_assoc. reflexivity.
Qed.

Lemma find_image_files_total d w :
  ∃ files, (find_image_files env d w).1 = Ok files.
Proof. by eexists. Qed.

(** The set-up of [main]: it raises, or [main] goes on after three events. *)
Lemma main_setup (bdir : Path) (k : M unit) w :
  bindM (setup_logging env)
    (λ _, bindM (emit (Log LStarting)) (λ _, bindM (mkdir env bdir) (λ _, k))) w
  = if logging_fault env
    then (Raise OSError, add_events [EvOpenLog (log_file env)] w)
    else match mkdir_fault env bdir with
         | Some e => (Raise e, add_events (setup_events env bdir) w)
         | None => k (add_events (setup_events env bdir) w)
         end.
Proof.
  unfold setup_logging, mkdir, mbind, M_bind, bindM, emit, prim, setup_events.
  simpl. destruct (logging_fault env); [done|]. simpl.
  destruct (mkdir_fault env bdir);
    unfold add_events, add_event; simpl; by rewrite <-!app_assoc.
Qed.

Lemma summary_world (conn : bool) (d : Path) (w1 : World) :
  let w2 :=
    add_event (Log (LSummarySaved (total_saved (stats w1))))
      (add_event (Log (LSummaryFailed (failed_count (stats w1))))
         (add_event (Log (LSummaryConverted (converted_count (stats w1))))
            (add_event (Log LComplete)
               (if conn then add_event EvClose w1 else w1)))) in
  (if 0 <? converted_count (stats w2)
   then add_event (Log (LBackupsStored d)) w2 else w2)
  = add_events (summary_events conn d (stats w1)) w1.
Proof.
  unfold summary_events. destruct conn; simpl;
    destruct (0 <? converted_count (stats w1));
    unfold add_event, add_events; simpl; f_equal;
    rewrite <-?app_assoc; reflexivity.
Qed.

Lemma loop_start_add_events conn evs1 evs2 w :
  loop_start conn evs2 (add_events evs1 w) = loop_start conn (evs1 ++ evs2) w.
Proof. unfold loop_start. rewrite add_events_app. by destruct conn. Qed.

(** The ways [main] can go: its set-up raises; or it returns before the
    loop, having written notes to the log and at most tried to connect; or
    it runs the loop over the discovered files and reports. *)
Lemma main_run w :
  let bdir := default (mkPath false ["backups"]) (backup_dir_arg args) in
  ∃ files,
    (find_image_files env (default root (data_path_arg args)) w).1 = Ok files
    ∧ ((∃ e evs,
          main env root args w = (Raise e, add_events evs w)
          ∧ (logging_fault env = true ∧ e = OSError
             ∧ evs = [EvOpenLog (log_file env)]
             ∨ logging_fault env = false ∧ mkdir_fault env bdir = Some e
               ∧ evs = setup_events env bdir))
       ∨ (logging_fault env = false ∧ mkdir_fault env bdir = None
          ∧ ∃ evs,
              main env root args w
              = (Ok tt, add_events (setup_events env bdir ++ evs) w)
              ∧ Forall (λ e, is_note e = true ∨ e = EvConnect) evs
              ∧ (skip_database args = true ∨ dry_run args = true ∨ files = [] →
                 Forall (λ e, is_note e = true) evs)
              ∧ (files = [] ∨ dry_run args = true
                 ∨ skip_database args = false ∧ connect_ok env = false))
       ∨ (logging_fault env = false ∧ mkdir_fault env bdir = None
          ∧ files ≠ [] ∧ dry_run args = false
          ∧ (skip_database args = true ∨ connect_ok env = true)
          ∧ ∃ evs,
              Forall (λ e, is_note e = true) evs
              ∧ let conn := negb (skip_database args) in
                let w1 := (process_all env root args conn bdir files
                             (loop_start conn (setup_events env bdir ++ evs) w)).2 in
                main env root args w
                = (Ok tt, add_events (summary_events conn bdir (stats w1)) w1))).
Proof.
  cbv zeta.
  set (bdir := default (mkPath false ["backups"]) (backup_dir_arg args)).
  destruct (find_image_files_total (default root (data_path_arg args)) w)
    as [files Hf].
  exists files. split; [done|].
  unfold main. fold bdir. unfold mbind, M_bind. cbv beta zeta.
  rewrite main_setup.
  destruct (logging_fault env) eqn:Hlf.
  { left. exists OSError, [EvOpenLog (log_file env)].
    split; [reflexivity|]. by left. }
  destruct (mkdir_fault env bdir) as [e|] eqn:Hmk.
  { left. exists e, (setup_events env bdir).
    split; [reflexivity|]. by right. }
  right.
  set (w_s := add_events (setup_events env bdir) w).
  assert ((find_image_files env (default root (data_path_arg args)) w_s).1
          = Ok files) as Hfs.
  { unfold w_s. by rewrite (find_image_files_run _ _ _ _ Hf). }
  destruct (decide (files = [])) as [->|Hne].
  { left. split; [done|]. split; [done|].
    exists [Log (LScanning (default root (data_path_arg args)));
            Log (LFound 0); Log LNoImages].
    split.
    - step by reflexivity.
      step by (apply (find_image_files_run _ _ _ [_]); exact Hfs).
      step by reflexivity.
      rewrite bool_decide_true by done.
      unfold w_s, emit, add_events, add_event.
      cbn [fs db txn txn_doomed stats trace length].
      by rewrite <-!app_assoc.
    - split; [by repeat constructor; left|]. split; [|by left].
      intros _. by repeat constructor. }
  destruct (main_scan_logs w_s files Hfs Hne) as (evs & Hlog & Hpre).
  rewrite Hpre. unfold w_s. rewrite add_events_app.
  destruct (dry_run args) eqn:Hdry.
  { left. split; [done|]. split; [done|].
    exists (evs ++ [Log LDryRun]). split.
    - unfold emit, add_event, add_events. simpl. by rewrite <-!app_assoc.
    - split; [|split; [|by right; left]].
      + apply Forall_app. split; [|by repeat constructor; left].
        eapply Forall_impl; [exact Hlog|]. by left.
      + intros _. apply Forall_app. split; [done|by repeat constructor]. }
  destruct (skip_database args) eqn:Hskip.
  { right. split; [done|]. split; [done|]. split; [done|]. split; [done|].
    split; [by left|].
    exists evs. split; [done|]. simpl negb. cbv iota.
    step by reflexivity. cbn [andb negb]. cbv iota.
    step by reflexivity.
    fold (process_all env root args false bdir files).
    step by apply process_all_run.
    step by reflexivity.
    step by reflexivity.
    step by reflexivity.
    step by reflexivity.
    step by reflexivity.
    step by reflexivity.
    etrans; [apply emit_opt|]. f_equal.
    exact (summary_world false bdir
             (process_all env root args false bdir files
                (loop_start false (setup_events env bdir ++ evs) w)).2). }
  destruct (connect_ok env) eqn:Hc.
  { right. split; [done|]. split; [done|]. split; [done|]. split; [done|].
    split; [by right|].
    exists evs. split; [done|]. simpl negb. cbv iota.
    unfold get_database_connection. rewrite Hc. unfold mbind, M_bind. cbv beta.
    step by reflexivity.
    cbn [andb negb]. cbv iota.
    step by reflexivity.
    fold (process_all env root args true bdir files).
    step by apply process_all_run.
    step by reflexivity.
    step by reflexivity.
    step by reflexivity.
    step by reflexivity.
    step by reflexivity.
    step by reflexivity.
    etrans; [apply emit_opt|]. f_equal.
    exact (summary_world true bdir
             (process_all env root args true bdir files
                (loop_start true (setup_events env bdir ++ evs) w)).2). }
  left. split; [done|]. split; [done|].
  exists (evs ++ [EvConnect; Log LDbConnectionFailed; Log LNoConnection]).
  split.
  - simpl negb. cbv iota.
    unfold get_database_connection. rewrite Hc.
    unfold mbind, M_bind, bindM, emit, mret, M_ret, add_event, add_events.
    simpl. by rewrite <-!app_assoc.
  - split; [|split; [|by right; right]].
    + apply Forall_app. split; [|by repeat constructor; auto].
      eapply Forall_impl; [exact Hlog|]. by left.
    + intros [?|[?|?]]; congruence.
Qed.

End MainProperties.


Lemma note_touches_nothing e :
  Notions.is_note e = true → Notions.touches_asset e = false.
Proof. by destruct e. Qed.

Section RunOutcome.
Context `{PIL} (env : Env) (root : Path) (args : Args).
Import PathOps Script Notions.

(** C8.  When metadata synchronization is requested and the connection
    cannot be established, [main] ends with the filesystem, the store and
    the counters as they were, and without any backup, conversion, move or
    statement. *)
Theorem no_connection_aborts w :
  connect_ok env = false → skip_database args = false →
  let w' := (main env root args w).2 in
  fs w' = fs w ∧ db w' = db w ∧ txn w' = txn w ∧ stats w' = stats w
  ∧ ∃ evs, trace w' = trace w ++ evs ∧ Forall (λ e, touches_asset e = false) evs.
Proof.
  intros Hc Hs. cbv zeta.
  destruct (main_run env root args w) as (files & Hf & [Hraise|[Hearly|Hloop]]).
  - destruct Hraise as (e & evs & -> & [(_ & _ & ->)|(_ & _ & ->)]);
      simpl; repeat split; eexists; (split; [done|]); by repeat constructor.
  - destruct Hearly as (_ & _ & evs & -> & Hevs & _). simpl. repeat split.
    exists (setup_events env (default (mkPath false ["backups"]) (backup_dir_arg args))
            ++ evs).
    split; [done|]. apply Forall_app. split; [by repeat constructor|].
    eapply Forall_impl; [exact Hevs|].
    intros x [Hx| ->]; [by apply note_touches_nothing|done].
  - destruct Hloop as (_ & _ & _ & _ & [?|?] & _); congruence.
Qed.


End RunOutcome.

(** A run against an unreachable store leaves the sample world alone. *)
Lemma no_connection_aborts_witness :
  fs (Script.main Samples.env_no_db Samples.data_root Samples.args_default
        Samples.world_photo_row).2 = fs Samples.world_photo_row
  ∧ db (Script.main Samples.env_no_db Samples.data_root Samples.args_default
          Samples.world_photo_row).2 = db Samples.world_photo_row.
Proof.
  destruct (no_connection_aborts Samples.env_no_db Samples.data_root
              Samples.args_default Samples.world_photo_row)
    as (Hfs & Hdb & _); [reflexivity..|].
  split; [exact Hfs|exact Hdb].
Defined.


(** ** The statistics of a run *)

(** C10.  The bytes saved that a run accumulates are the exact integer sum,
    over the assets it counts as converted, of the size of the file before
    the conversion minus its size after it.  A conversion that grows the
    file contributes a negative term, and the total that the summary
    reports can be negative. *)
Theorem total_saved_exact_sum :
  (∀ `{PIL} (env : Env) root args conn bdir files w,
     let w' := (Notions.process_all env root args conn bdir files w).2 in
     total_saved (stats w')
     = (total_saved (stats w)
        + Notions.bytes_saved env root args conn bdir files w)%Z)
  ∧ (let w := Samples.world_of [(Samples.photo, Samples.jpeg_bytes)] [] in
     let w' := (Script.main Samples.env_ok Samples.data_root
                  Samples.args_no_db w).2 in
     converted_count (stats w') = 1
     ∧ total_saved (stats w') = (-1)%Z
     ∧ Log (LSummarySaved (-1)) ∈ trace w').
Proof.
  split.
  - intros. apply total_saved_accumulates.
  - vm_compute. repeat split. in_list.
Qed.


(** ** Where the script departs from its specification *)

(** C1 (the script at the failing input).  A file without an extension
    whose content is already WebP is discovered, and it is not skipped:
    the run backs it up, converts it, moves the result over it and sends
    the update to the store.  The analysis of the same run reports the
    file under the format [.webp]. *)
Theorem extensionless_webp_is_reconverted :
  let w := Samples.world_of [(Samples.uuid_file, Samples.webp_bytes)]
             [("data/docs/3f2a", "image/webp")] in
  let w' := (Script.main Samples.env_ok Samples.data_root
               Samples.args_default w).2 in
  (img_format <$> decode Samples.env_ok Samples.webp_bytes) = Some "WEBP"
  ∧ PathOps.suffix Samples.uuid_file = ""
  ∧ EvCopy Samples.uuid_file Samples.uuid_backup ∈ trace w'
  ∧ EvConvert Samples.uuid_file Samples.uuid_temp ∈ trace w'
  ∧ EvMove Samples.uuid_temp Samples.uuid_file ∈ trace w'
  ∧ EvExecute "image/webp" "data/docs/3f2a" ∈ trace w'
  ∧ Log (LFormat ".webp" 1) ∈ trace w'
  ∧ fs w !! Samples.uuid_backup = None
  ∧ fs w' !! Samples.uuid_backup = Some Samples.webp_bytes
  ∧ converted_count (stats w') = 1.
Proof. vm_compute. repeat split; in_list. Qed.

(** C2 (the script at the failing input).  When the move of the converted
    file over the original raises, the asset is counted as failed, but
    nothing is moved back from the backup: the original path keeps what
    the interrupted move left there, which is not the backed-up content. *)
Theorem swap_failure_is_not_restored :
  let w := Samples.world_of [(Samples.photo, Samples.jpeg_bytes)] [] in
  let w' := (Script.main Samples.env_move_fails Samples.data_root
               Samples.args_no_db w).2 in
  converted_count (stats w') = 0
  ∧ failed_count (stats w') = 1
  ∧ EvMove Samples.photo_temp Samples.photo ∈ trace w'
  ∧ (EvMove Samples.photo_backup Samples.photo ∉ trace w')
  ∧ fs w' !! Samples.photo_backup = Some Samples.jpeg_bytes
  ∧ fs w' !! Samples.photo = Some Samples.junk_bytes.
Proof.
  vm_compute. repeat split; first [in_list|not_in_list].
Qed.

(** C3 (the script at the failing input).  The key of the update is taken
    relative to the constant [HOMEBOX_DATA_PATH], not to the data path
    given on the command line.  With a data path outside the constant the
    key cannot be derived: no statement is sent, the transaction is rolled
    back and the row keeps its old type, although the file is converted.
    With a data path inside the constant the key is relative to the
    constant. *)
Theorem update_key_ignores_data_path_option :
  (let w := Samples.world_of [(Samples.moved_photo, Samples.jpeg_bytes)]
              [("data/docs/photo.jpg", "image/jpeg")] in
   let w' := (Script.main Samples.env_ok Samples.data_root
                Samples.args_other_root w).2 in
   ((λ rel, "data/" +:+ PathOps.str rel)
      <$> PathOps.relative_to Samples.moved_photo Samples.other_root)
   = Some "data/docs/photo.jpg"
   ∧ converted_count (stats w') = 1
   ∧ (EvExecute "image/webp" "data/docs/photo.jpg" ∉ trace w')
   ∧ EvRollback ∈ trace w'
   ∧ Log (LDbUpdateFailed "photo.jpg") ∈ trace w'
   ∧ db w' = [("data/docs/photo.jpg", "image/jpeg")])
  ∧ (let w := Samples.world_of [(Samples.photo, Samples.jpeg_bytes)]
                [("data/photo.jpg", "image/jpeg")] in
     let w' := (Script.main Samples.env_ok Samples.data_root
                  Samples.args_sub_root w).2 in
     ((λ rel, "data/" +:+ PathOps.str rel)
        <$> PathOps.relative_to Samples.photo Samples.sub_root)
     = Some "data/photo.jpg"
     ∧ (EvExecute "image/webp" "data/photo.jpg" ∉ trace w')
     ∧ EvExecute "image/webp" "data/docs/photo.jpg" ∈ trace w'
     ∧ db w' = [("data/photo.jpg", "image/jpeg")]).
Proof.
  vm_compute. repeat split; first [in_list|not_in_list].
Qed.

(** C4 (the script at the failing input).  The codec fails on the only
    file, and the move that restores the file from its backup raises
    after it has truncated the file.  The run counts the one asset as
    failed twice, its summary reports two failures, and the file does not
    hold its bytes of before the run. *)
Theorem codec_failure_counted_twice :
  let w := Samples.world_photo in
  let w' := (Script.main Samples.env_restore_fails Samples.data_root
               Samples.args_no_db w).2 in
  fs w !! Samples.photo = Some Samples.jpeg_bytes
  ∧ decode Samples.env_restore_fails Samples.jpeg_bytes = None
  ∧ converted_count (stats w') = 0
  ∧ failed_count (stats w') = 2
  ∧ Log (LConvertFailed Samples.photo) ∈ trace w'
  ∧ EvMove Samples.photo_backup Samples.photo ∈ trace w'
  ∧ Log (LErrorProcessing Samples.photo) ∈ trace w'
  ∧ Log (LSummaryFailed 2) ∈ trace w'
  ∧ fs w' !! Samples.photo = Some Samples.junk_bytes.
Proof. vm_compute. repeat split; in_list. Qed.

(** C5 (the script at the failing input).  The connection is lost while
    the store is updated: the statement raises, and the rollback in the
    handler raises too.  The exception leaves [update_database_mime_type]
    and is caught by the loop: the asset, whose file has been replaced by
    the converted one, is counted as failed and not as converted, and the
    warning for a failed update is not logged. *)
Theorem failed_rollback_counts_swapped_asset_as_failed :
  let w := Samples.world_photo_row in
  let w' := (Script.main Samples.env_conn_lost Samples.data_root
               Samples.args_default w).2 in
  fs w' !! Samples.photo = Some Samples.webp_bytes
  ∧ fs w' !! Samples.photo_backup = Some Samples.jpeg_bytes
  ∧ EvMove Samples.photo_temp Samples.photo ∈ trace w'
  ∧ EvExecute "image/webp" "data/docs/photo.jpg" ∈ trace w'
  ∧ Log (LDbUpdateError Samples.photo) ∈ trace w'
  ∧ EvRollback ∈ trace w'
  ∧ (Log (LDbUpdateFailed "photo.jpg") ∉ trace w')
  ∧ Log (LErrorProcessing Samples.photo) ∈ trace w'
  ∧ converted_count (stats w') = 0
  ∧ failed_count (stats w') = 1
  ∧ Log (LSummaryConverted 0) ∈ trace w'
  ∧ db w' = db w.
Proof.
  vm_compute. repeat split; first [in_list|not_in_list].
Qed.

(** * Further properties of the code *)

Import PathOps Script Notions.

(** ** Discovery and paths *)

Section DiscoveryProperties.
Context `{PIL} (env : Env).


Lemma str_drop_append a b k :
  Str.drop (String.length a + k) (a +:+ b) = Str.drop k b.
Proof. induction a as [|c r IH]; simpl; [done|apply IH]. Qed.

(** The suffix of a name that ends in [.webp.tmp] is [.tmp]. *)
Lemma temp_name_suffix stem :
  let n := stem +:+ ".webp.tmp" in
  match Str.rfind_dot n with
  | Some i =>
      if (0 <? i) && (i <? String.length n - 1) then Str.drop i n else ""
  | None => ""
  end = ".tmp".
Proof.
  cbv zeta. rewrite (rfind_dot_append stem ".webp.tmp" 5) by reflexivity.
  rewrite length_append. simpl String.length.
  replace ((0 <? String.length stem + 5)
           && (String.length stem + 5 <? String.length stem + 9 - 1)) with true.
  - by rewrite str_drop_append.
  - symmetry. apply andb_true_intro. split; apply Nat.ltb_lt; lia.
Qed.

(** X2.  The temporary file of an asset, [p.with_suffix('.webp.tmp')], lies
    in the directory of the asset under another name, has the suffix
    [.tmp], and is therefore never taken for an image by
    [find_image_files], whatever it holds. *)
Theorem temp_file_is_never_discovered p t f :
  with_suffix p ".webp.tmp" = Some t →
  suffix t = ".tmp"
  ∧ t ≠ p
  ∧ anchored t = anchored p
  ∧ removelast (parts t) = removelast (parts p)
  ∧ is_image_file env f t = false.
Proof.
  intros Ht. pose proof (temp_name_differs p t Ht) as Hname.
  assert (suffix t = ".tmp") as Hs.
  { unfold with_suffix in Ht. case_decide; [done|]. injection Ht as <-.
    unfold suffix at 1. rewrite name_snoc. case_decide; apply temp_name_suffix. }
  split; [done|]. split; [by intros ->|].
  unfold with_suffix in Ht. case_decide; [done|]. injection Ht as <-. simpl.
  split; [done|]. split; [apply removelast_last|].
  unfold is_image_file. destruct (f !! _); [|done].
  unfold suffix in Hs |- *. rewrite name_snoc in Hs |- *. rewrite Hs.
  by vm_compute.
Qed.

Lemma is_prefix_app l1 l2 :
  is_prefix l1 l2 = true → l2 = l1 ++ List.skipn (length l1) l2.
Proof.
  revert l2. induction l1 as [|x r IH]; intros [|y l2]; simpl; try done.
  intros [->%bool_decide_eq_true Hr]%andb_prop. f_equal. by apply IH.
Qed.

(** For a file below a directory, as [rglob] yields them,
    [file_path.relative_to] does not raise: it is the non-empty relative
    path that leads from the directory to the file. *)
Lemma file_below_root_has_relative_path root p :
  below root p = true →
  ∃ rel,
    relative_to p root = Some rel
    ∧ anchored rel = false
    ∧ parts p = parts root ++ parts rel
    ∧ parts rel ≠ [].
Proof.
  unfold below, relative_to.
  intros [[Ha Hp]%andb_prop Hl%Nat.ltb_lt]%andb_prop.
  rewrite Ha, Hp. simpl. eexists. split; [done|]. simpl.
  split; [done|]. split; [by apply is_prefix_app|].
  intros Hnil. apply (f_equal length) in Hnil.
  rewrite length_skipn in Hnil. simpl in Hnil. lia.
Qed.

End DiscoveryProperties.

(** The temporary file of the sample photo. *)
Lemma temp_file_is_never_discovered_witness :
  suffix Samples.photo_temp = ".tmp"
  ∧ Samples.photo_temp ≠ Samples.photo
  ∧ anchored Samples.photo_temp = anchored Samples.photo
  ∧ removelast (parts Samples.photo_temp) = removelast (parts Samples.photo)
  ∧ is_image_file Samples.env_ok (fs Samples.world_photo) Samples.photo_temp = false.
Proof.
  apply (temp_file_is_never_discovered Samples.env_ok Samples.photo).
  vm_compute. reflexivity.
Defined.

Section PathProperties.

Lemma length_removelast_snoc (l : list string) x :
  l ≠ [] → length (removelast l ++ [x]) = length l.
Proof.
  induction l as [|a [|b l] IH]; [done|done|].
  intros _. change (S (length (removelast (b :: l) ++ [x])) = S (length (b :: l))).
  f_equal. by apply IH.
Qed.

Lemma is_prefix_removelast d l x :
  is_prefix d l = true → length d < length l →
  is_prefix d (removelast l ++ [x]) = true.
Proof.
  revert l. induction d as [|a r IH]; intros l; [done|].
  destruct l as [|y [|z l]]; [done|simpl; lia|].
  intros [Ha Hr]%andb_prop Hl.
  change (bool_decide (a = y) && is_prefix r (removelast (z :: l) ++ [x]) = true).
  rewrite Ha. simpl in Hl. apply IH; [done|simpl; lia].
Qed.

(** Changing the suffix of a file keeps it below the same directory. *)
Lemma below_with_suffix d p s t :
  with_suffix p s = Some t → below d p = true → below d t = true.
Proof.
  unfold with_suffix. case_decide as Hn; [done|]. intros [= <-].
  unfold below. simpl.
  intros [[Ha Hp]%andb_prop Hl%Nat.ltb_lt]%andb_prop.
  assert (parts p ≠ []) as Hne.
  { intros Hnil. rewrite Hnil in Hl. simpl in Hl. lia. }
  rewrite Ha, is_prefix_removelast, length_removelast_snoc by done.
  by apply Nat.ltb_lt in Hl as ->.
Qed.

Lemma joinpath_inside d n q :
  q = joinpath d n → q = d ∨ removelast (parts q) = parts d.
Proof.
  unfold joinpath. case_decide; intros ->; [by left|right].
  simpl. apply removelast_last.
Qed.

End PathProperties.

(** ** The codec *)

Section NormalizeProperties.
Context `{PIL}.
Import Codec.

(** X3.  The mode normalization of [convert_to_webp] is idempotent: an
    image that has been normalized is left as it is by a second pass. *)
Theorem normalize_idempotent img : normalize (normalize img) = normalize img.
Proof.
  pose proof (normalize_mode img) as Hm.
  unfold normalize at 1.
  rewrite bool_decide_false.
  - rewrite bool_decide_false; [done|].
    intros Hn. apply Hn. rewrite !elem_of_cons. tauto.
  - rewrite !elem_of_cons, elem_of_nil.
    destruct Hm as [-> | ->]; intuition discriminate.
Qed.

End NormalizeProperties.

Section ConversionProperties.
Context `{PIL} (env : Env).

(** X4.  [convert_to_webp] never raises.  It returns [True] exactly when
    the input exists, opens as an image and is saved, and then the output
    path holds the encoding of the normalized image.  It writes to no path
    but the output path, and when it returns [False] it has logged the
    failure. *)
Theorem convert_to_webp_result inp out q w :
  ∃ ok w',
    convert_to_webp env inp out q w = (Ok ok, w')
    ∧ (∀ r, r ≠ out → fs w' !! r = fs w !! r)
    ∧ db w' = db w ∧ txn w' = txn w ∧ stats w' = stats w
    ∧ (ok = true ↔
       ∃ content img bytes,
         fs w !! inp = Some content ∧ decode env content = Some img
         ∧ encode env (Codec.normalize img) q WEBP_METHOD = Encoded bytes
         ∧ fs w' !! out = Some bytes)
    ∧ (ok = false →
       trace w' = trace w ++ [EvConvert inp out; Log (LConvertFailed inp)]).
Proof.
  run_script. simpl.
  destruct (fs w !! inp) as [content|] eqn:Hin; simpl.
  - destruct (decode env content) as [img|] eqn:Hd; simpl.
    + destruct (encode env (Codec.normalize img) q WEBP_METHOD)
        as [bytes|[part|]] eqn:He; simpl.
      * eexists _, _. split; [reflexivity|]. simpl.
        split; [by intros r Hr; rewrite lookup_insert_ne|].
        repeat (split; [done|]). split; [|done]. split; [|done].
        intros _. exists content, img, bytes. by rewrite lookup_insert_eq.
      * eexists _, _. split; [reflexivity|]. simpl.
        split; [by intros r Hr; rewrite lookup_insert_ne|].
        repeat (split; [done|]). split; [|by rewrite <-app_assoc].
        split; [done|]. intros (c & i & b & Hc' & Hd' & He' & _). congruence.
      * eexists _, _. split; [reflexivity|]. simpl.
        split; [done|]. repeat (split; [done|]).
        split; [|by rewrite <-app_assoc].
        split; [done|]. intros (c & i & b & Hc' & Hd' & He' & _). congruence.
    + eexists _, _. split; [reflexivity|]. simpl.
      split; [done|]. repeat (split; [done|]). split; [|by rewrite <-app_assoc].
      split; [done|]. intros (c & i & b & Hc' & Hd' & _). congruence.
  - eexists _, _. split; [reflexivity|]. simpl.
    split; [done|]. repeat (split; [done|]). split; [|by rewrite <-app_assoc].
    split; [done|]. intros (c & i & b & ? & _). congruence.
Qed.

End ConversionProperties.

(** ** Backup and restore *)

Section BackupProperties.
Context `{PIL} (env : Env) (bdir : Path).

(** X5.  [create_backup] followed by the restoring [shutil.move] is a round
    trip: the file holds its bytes again and the backup is gone, so the
    filesystem is as before when no older backup of that name existed. *)
Theorem backup_then_restore p b w :
  fs w !! p = Some b →
  joinpath bdir (name p) ≠ p →
  move_fault env (joinpath bdir (name p)) p = None →
  ∃ w1 w2,
    create_backup p bdir w = (Ok (joinpath bdir (name p)), w1)
    ∧ shutil_move env (joinpath bdir (name p)) p w1 = (Ok tt, w2)
    ∧ fs w2 = delete (joinpath bdir (name p)) (fs w)
    ∧ (fs w !! joinpath bdir (name p) = None → fs w2 = fs w)
    ∧ db w2 = db w ∧ stats w2 = stats w.
Proof.
  intros Hp Hne Hm. eexists _, _.
  split; [by apply create_backup_ok|].
  split; [apply shutil_move_ok; [done|]; simpl; apply lookup_insert_eq|].
  simpl.
  assert (<[p:=b]> (delete (joinpath bdir (name p))
                      (<[joinpath bdir (name p):=b]> (fs w)))
          = delete (joinpath bdir (name p)) (fs w)) as Heq.
  { rewrite delete_insert_eq. apply insert_id. by rewrite lookup_delete_ne. }
  rewrite Heq. repeat split; try done.
  intros Hnone. by apply delete_id.
Qed.

End BackupProperties.

(** Backing up and restoring the sample photo. *)
Lemma backup_then_restore_witness :
  ∃ w1 w2,
    create_backup Samples.photo Samples.backups Samples.world_photo
    = (Ok Samples.photo_backup, w1)
    ∧ shutil_move Samples.env_ok Samples.photo_backup Samples.photo w1 = (Ok tt, w2)
    ∧ fs w2 = delete Samples.photo_backup (fs Samples.world_photo)
    ∧ (fs Samples.world_photo !! Samples.photo_backup = None
       → fs w2 = fs Samples.world_photo)
    ∧ db w2 = db Samples.world_photo ∧ stats w2 = stats Samples.world_photo.
Proof.
  apply (backup_then_restore Samples.env_ok Samples.backups Samples.photo
           Samples.jpeg_bytes Samples.world_photo).
  - vm_compute. reflexivity.
  - discriminate.
  - reflexivity.
Defined.

(** ** One asset *)

Section AssetFiles.
Context `{PIL} (env : Env) (root : Path) (args : Args) (conn : bool) (bdir : Path).

(** The temporary path of an asset is not its backup path. *)
Lemma temp_not_backup p t :
  with_suffix p ".webp.tmp" = Some t → t ≠ joinpath bdir (name p).
Proof.
  intros Ht ->. pose proof (temp_name_differs _ _ Ht) as Hn.
  unfold with_suffix in Ht. case_decide; [done|].
  by rewrite name_joinpath in Hn.
Qed.

(** What the loop body does to the files, in every case. *)
Lemma process_image_files p w :
  let w' := (process_image env root args conn bdir p w).2 in
  let bp := joinpath bdir (name p) in
  (∀ q, q ≠ p → q ≠ bp → with_suffix p ".webp.tmp" ≠ Some q →
        fs w' !! q = fs w !! q)
  ∧ (∀ b, fs w !! p = Some b → fs w' !! p = Some b ∨ fs w' !! bp = Some b).
Proof.
  run_script. simpl.
  repeat (case_match; simplify_eq/=);
    try match goal with
        | Hs : with_suffix p ".webp.tmp" = Some ?t |- _ =>
            pose proof (temp_not_backup p t Hs)
        end;
    (split;
     [intros q Hp Hb Ht;
      rewrite ?lookup_insert_ne, ?lookup_delete_ne, ?lookup_insert_ne by congruence;
      done
     |intros b0 Hb0; simplify_map_eq;
      first [by auto | by left; map_lookup | by right; map_lookup]]).
Qed.

End AssetFiles.

Section AssetAccounting.
Context `{PIL} (env : Env) (root : Path) (args : Args) (conn : bool) (bdir : Path).

(** What the loop body does to the counters, the log and the store, in
    every case. *)
Lemma process_image_accounting p w :
  let w' := (process_image env root args conn bdir p w).2 in
  (converted_count (stats w') = converted_count (stats w)
   ∧ failed_count (stats w) ≤ failed_count (stats w') ≤ failed_count (stats w) + 2
   ∨ converted_count (stats w') = S (converted_count (stats w))
     ∧ failed_count (stats w') = failed_count (stats w))
  ∧ (Str.lower (suffix p) ≠ ".webp" →
     converted_count (stats w) + failed_count (stats w)
     < converted_count (stats w') + failed_count (stats w'))
  ∧ (∃ evs, trace w' = trace w ++ evs
            ∧ (Str.lower (suffix p) ≠ ".webp" → Log LAlreadyWebp ∉ evs)
            ∧ (conn && negb (skip_database args) = false →
               Forall (λ e, is_db_call e = false) evs))
  ∧ (conn && negb (skip_database args) = false →
     db w' = db w ∧ txn w' = txn w ∧ txn_doomed w' = txn_doomed w)
  ∧ (db w' = db w ∨ ∃ key, db w' = update_row TARGET_MIME key <$> txn w)
  ∧ (txn w' = txn w ∨ txn w' = db w
     ∨ ∃ key, txn w' = update_row TARGET_MIME key <$> txn w).
Proof.
  run_script. simpl.
  repeat (case_match; simplify_eq/=);
    (split; [lia|]);
    (split; [intros ?; first [lia | by case_bool_decide]|]);
    (split;
     [eexists; rewrite <-?app_assoc; (split; [reflexivity|]);
      split;
      [intros Hne; first [not_in_list | by case_bool_decide]
      |intros ?; try done; by repeat constructor]
     |]);
    (split; [intros ?; done|]);
    (split; eauto).
Qed.

End AssetAccounting.

Section AssetProperties.
Context `{PIL} (env : Env) (root : Path) (args : Args) (conn : bool) (bdir : Path).

(** X6.  Whatever succeeds or fails, processing an asset writes to at most
    three paths: the asset, its backup and its temporary file.  Every other
    file keeps its content. *)
Theorem process_image_touches_three_paths p q w :
  q ≠ p → q ≠ joinpath bdir (name p) → with_suffix p ".webp.tmp" ≠ Some q →
  fs (process_image env root args conn bdir p w).2 !! q = fs w !! q.
Proof.
  intros Hp Hb Ht.
  by apply (process_image_files env root args conn bdir p w).
Qed.

(** X7.  Whatever succeeds or fails, after an asset has been processed its
    original bytes are still at its path or at its backup path. *)
Theorem original_bytes_survive p b w :
  fs w !! p = Some b →
  let w' := (process_image env root args conn bdir p w).2 in
  fs w' !! p = Some b ∨ fs w' !! joinpath bdir (name p) = Some b.
Proof.
  intros Hp. by apply (process_image_files env root args conn bdir p w).
Qed.

(** A metadata update returns when [conn.rollback()] does not raise. *)
Lemma update_returns p mime w :
  rollback_fault env p = false →
  ∃ updated w',
    update_database_mime_type env root p mime w = (Ok updated, w')
    ∧ fs w' = fs w ∧ stats w' = stats w.
Proof.
  intros Hrb. destruct (cursor_fault env p) eqn:Hcur.
  - run_script. simpl. rewrite Hcur. simpl. rewrite Hrb. by eexists _, _.
  - destruct (update_outcome env root p mime w Hcur Hrb)
      as (updated & w' & Hup & Hfs & Hst & _).
    by exists updated, w'.
Qed.

(** The metadata step of the loop body then returns and leaves files and
    counters alone, whether or not it is enabled. *)
Lemma sync_step p w0 :
  rollback_fault env p = false →
  ∃ w1,
    (if conn && negb (skip_database args)
     then bindM (update_database_mime_type env root p TARGET_MIME)
            (λ updated, if updated then emit (Log (LDbUpdated (name p)))
                        else emit (Log (LDbUpdateFailed (name p))))
     else mret tt) w0 = (Ok tt, w1)
    ∧ fs w1 = fs w0 ∧ stats w1 = stats w0.
Proof.
  intros Hrb. destruct (conn && negb (skip_database args)).
  - destruct (update_returns p TARGET_MIME w0 Hrb)
      as (updated & w1 & Hup & Hfs & Hst).
    unfold bindM. rewrite Hup. destruct updated; eexists; by split.
  - by eexists.
Qed.

(** A conversion in which nothing fails. *)
Lemma conversion_run p content img out t w :
  fs w !! p = Some content →
  Str.lower (suffix p) ≠ ".webp" →
  joinpath bdir (name p) ≠ p →
  with_suffix p ".webp.tmp" = Some t →
  decode env content = Some img →
  encode env (Codec.normalize img) (quality args) WEBP_METHOD = Encoded out →
  move_fault env t p = None →
  rollback_fault env p = false →
  let w' := (process_image env root args conn bdir p w).2 in
  fs w' !! p = Some out
  ∧ fs w' !! joinpath bdir (name p) = Some content
  ∧ fs w' !! t = None
  ∧ converted_count (stats w') = S (converted_count (stats w))
  ∧ failed_count (stats w') = failed_count (stats w)
  ∧ total_saved (stats w')
    = (total_saved (stats w)
       + (Z.of_nat (length content) - Z.of_nat (length out)))%Z.
Proof.
  intros Hp Hs Hbp Ht Hd He Hm Hrb.
  pose proof (temp_not_backup bdir p t Ht) as Htb.
  assert (t ≠ p) as Htp.
  { intros ->. by apply (temp_name_differs p p). }
  set (bp := joinpath bdir (name p)) in *.
  set (w_sw :=
    set_fs (λ f, <[p:=out]> (delete t f))
      (add_event (EvMove t p)
        (set_fs (insert t out)
          (add_event (EvConvert p t)
            (set_fs (insert bp content)
              (add_event (EvCopy p bp)
                (add_event (Log (LProcessing (name p))) w))))))).
  destruct (sync_step p w_sw Hrb) as (w_sy & Hsync & Hfs & Hst).
  assert (process_image env root args conn bdir p w =
    (Ok tt,
     add_event (Log (LConverted (length content) (length out)
                       (Z.of_nat (length content) - Z.of_nat (length out))))
       (set_stats (λ s, mkStats (S (converted_count s)) (failed_count s)
                          (total_saved s + (Z.of_nat (length content)
                                            - Z.of_nat (length out))))
          w_sy))) as Hrun.
  { unfold process_image. unfold mbind, M_bind. cbv beta.
    apply try_except_ok.
    step by reflexivity.
    rewrite bool_decide_false by done.
    step by (apply create_backup_ok; [exact Hp|exact Hbp]).
    fold bp.
    step by (apply stat_size_ok; simpl; rewrite lookup_insert_ne by done; exact Hp).
    rewrite Ht. step by reflexivity.
    step by (apply (convert_to_webp_ok env args p t content img out); [|done..];
             simpl; rewrite lookup_insert_ne by done; exact Hp).
    step by (apply (stat_size_ok t out); simpl; apply lookup_insert_eq).
    step by (apply (shutil_move_ok env t p out); [done|simpl; apply lookup_insert_eq]).
    fold w_sw.
    step by exact Hsync.
    step by reflexivity.
    reflexivity. }
  rewrite Hrun. simpl. rewrite Hfs, Hst. simpl.
  split; [apply lookup_insert_eq|].
  split.
  { rewrite lookup_insert_ne, lookup_delete_ne, lookup_insert_ne by done.
    apply lookup_insert_eq. }
  split; [|done].
  rewrite lookup_insert_ne by done. apply lookup_delete_eq.
Qed.

(** X8.  A conversion in which nothing fails leaves the WebP bytes at the
    asset's path under its old name, the original bytes at the backup
    path, and no temporary file; the asset is counted as converted once and
    the saving is the difference of the two sizes. *)
Theorem conversion_keeps_backup_and_removes_temp p content img out t w :
  fs w !! p = Some content →
  Str.lower (suffix p) ≠ ".webp" →
  joinpath bdir (name p) ≠ p →
  with_suffix p ".webp.tmp" = Some t →
  decode env content = Some img →
  encode env (Codec.normalize img) (quality args) WEBP_METHOD = Encoded out →
  move_fault env t p = None →
  rollback_fault env p = false →
  let w' := (process_image env root args conn bdir p w).2 in
  fs w' !! p = Some out
  ∧ fs w' !! joinpath bdir (name p) = Some content
  ∧ fs w' !! t = None
  ∧ converted_count (stats w') = S (converted_count (stats w))
  ∧ failed_count (stats w') = failed_count (stats w)
  ∧ total_saved (stats w')
    = (total_saved (stats w)
       + (Z.of_nat (length content) - Z.of_nat (length out)))%Z.
Proof. apply conversion_run. Qed.

(** X9.  When the codec fails and the restoring move raises too, the
    asset is counted as failed twice, once in the [else] branch and once
    in the handler; the backup keeps the original bytes and the asset's
    path holds what the interrupted move has left there. *)
Theorem failed_restore_is_counted_twice p content left w :
  fs w !! p = Some content →
  Str.lower (suffix p) ≠ ".webp" →
  name p ≠ "" →
  joinpath bdir (name p) ≠ p →
  codec_fails env args content →
  move_fault env (joinpath bdir (name p)) p = Some left →
  let w' := (process_image env root args conn bdir p w).2 in
  failed_count (stats w') = failed_count (stats w) + 2
  ∧ converted_count (stats w') = converted_count (stats w)
  ∧ fs w' !! joinpath bdir (name p) = Some content
  ∧ fs w' !! p = Some (default content left).
Proof.
  intros Hp Hs Hn Hbp Hc Hm.
  destruct (with_suffix p ".webp.tmp") as [t|] eqn:Ht; cycle 1.
  { unfold with_suffix in Ht. by case_decide. }
  pose proof (temp_not_backup bdir p t Ht) as Htb.
  assert (t ≠ p) as Htp.
  { intros ->. by apply (temp_name_differs p p). }
  set (bp := joinpath bdir (name p)) in *.
  unfold process_image. unfold mbind, M_bind. cbv beta.
  erewrite try_except_raise; cycle 1.
  { step by reflexivity.
    rewrite bool_decide_false by done.
    step by (apply create_backup_ok; [exact Hp|exact Hbp]).
    fold bp.
    step by (apply stat_size_ok; simpl; rewrite lookup_insert_ne by done; exact Hp).
    rewrite Ht. step by reflexivity.
    step by (apply (convert_to_webp_fails env args p t content); [|exact Hc];
             simpl; rewrite lookup_insert_ne by done; exact Hp).
    step by reflexivity.
    erewrite bindM_raise; [reflexivity|].
    apply (shutil_move_fault env bp p left). exact Hm. }
  simpl. split; [lia|]. split; [done|].
  destruct left as [part|]; simpl;
    destruct (codec_leftover env args content); simpl; split; map_lookup.
Qed.

(** X10.  When the backup cannot be made, because the file has vanished
    or is its own backup, the asset is counted as failed once and nothing
    else happens: no conversion, no move, no statement, and files and store
    are as before. *)
Theorem backup_failure_leaves_asset_untouched p w :
  Str.lower (suffix p) ≠ ".webp" →
  fs w !! p = None ∨ joinpath bdir (name p) = p →
  let w' := (process_image env root args conn bdir p w).2 in
  fs w' = fs w ∧ db w' = db w
  ∧ failed_count (stats w') = S (failed_count (stats w))
  ∧ converted_count (stats w') = converted_count (stats w)
  ∧ trace w' =
    trace w ++ [Log (LProcessing (name p));
                EvCopy p (joinpath bdir (name p));
                Log (LErrorProcessing p)].
Proof.
  intros Hs Hbad.
  assert (∃ e,
    create_backup p bdir (add_event (Log (LProcessing (name p))) w)
    = (Raise e, add_event (EvCopy p (joinpath bdir (name p)))
                  (add_event (Log (LProcessing (name p))) w))) as [e He].
  { run_script. simpl. destruct (fs w !! p) as [b|]; [|by eexists].
    destruct Hbad as [|Hbp]; [done|].
    destruct (decide (p = joinpath bdir (name p))); [by eexists|congruence]. }
  unfold process_image. unfold mbind, M_bind. cbv beta.
  erewrite try_except_raise; cycle 1.
  { step by reflexivity.
    rewrite bool_decide_false by done.
    erewrite bindM_raise; [reflexivity|exact He]. }
  simpl. by rewrite <-?app_assoc.
Qed.

(** X11.  When the encoder raises after writing part of its output, the
    asset is restored from its backup, which is thereby consumed, and the
    partial temporary file is left behind: nothing removes it. *)
Theorem failed_conversion_leaves_temp_file p content part t w :
  fs w !! p = Some content →
  Str.lower (suffix p) ≠ ".webp" →
  joinpath bdir (name p) ≠ p →
  with_suffix p ".webp.tmp" = Some t →
  codec_fails env args content →
  codec_leftover env args content = Some part →
  move_fault env (joinpath bdir (name p)) p = None →
  let w' := (process_image env root args conn bdir p w).2 in
  fs w' !! t = Some part
  ∧ fs w' !! joinpath bdir (name p) = None
  ∧ fs w' !! p = Some content.
Proof.
  intros Hp Hs Hbp Ht Hc Hl Hm.
  pose proof (temp_not_backup bdir p t Ht) as Htb.
  assert (t ≠ p) as Htp.
  { intros ->. by apply (temp_name_differs p p). }
  set (bp := joinpath bdir (name p)) in *.
  eassert (process_image env root args conn bdir p w = (Ok tt, _)) as Hrun.
  { unfold process_image. unfold mbind, M_bind. cbv beta.
    apply try_except_ok.
    step by reflexivity.
    rewrite bool_decide_false by done.
    step by (apply create_backup_ok; [exact Hp|exact Hbp]).
    fold bp.
    step by (apply stat_size_ok; simpl; rewrite lookup_insert_ne by done; exact Hp).
    rewrite Ht. step by reflexivity.
    step by (apply (convert_to_webp_fails env args p t content); [|exact Hc];
             simpl; rewrite lookup_insert_ne by done; exact Hp).
    step by reflexivity.
    step by (apply shutil_move_ok with (b := content); [done|]; simpl;
             rewrite Hl; simpl; rewrite lookup_insert_ne by done;
             apply lookup_insert_eq).
    reflexivity. }
  rewrite Hrun. clear Hrun. simpl. rewrite Hl. simpl.
  split; [by map_lookup|]. split.
  { rewrite lookup_insert_ne by done. apply lookup_delete_eq. }
  apply lookup_insert_eq.
Qed.

End AssetProperties.

(** Processing one sample photo leaves the other alone. *)
Lemma process_image_touches_three_paths_witness :
  fs (process_image Samples.env_move_fails Samples.data_root Samples.args_default
        true Samples.backups Samples.photo Samples.world_two_photos).2
    !! Samples.photo2
  = fs Samples.world_two_photos !! Samples.photo2.
Proof.
  apply (process_image_touches_three_paths Samples.env_move_fails
           Samples.data_root Samples.args_default true Samples.backups
           Samples.photo Samples.photo2 Samples.world_two_photos).
  - discriminate.
  - discriminate.
  - discriminate.
Defined.

(** The sample photo when every move fails. *)
Lemma original_bytes_survive_witness :
  let w' := (process_image Samples.env_move_fails Samples.data_root
               Samples.args_default true Samples.backups Samples.photo
               Samples.world_photo).2 in
  fs w' !! Samples.photo = Some Samples.jpeg_bytes
  ∨ fs w' !! joinpath Samples.backups (name Samples.photo) = Some Samples.jpeg_bytes.
Proof.
  apply (original_bytes_survive Samples.env_move_fails Samples.data_root
           Samples.args_default true Samples.backups Samples.photo
           Samples.jpeg_bytes Samples.world_photo).
  vm_compute. reflexivity.
Defined.

(** The sample photo, converted. *)
Lemma conversion_keeps_backup_and_removes_temp_witness :
  let w' := (process_image Samples.env_ok Samples.data_root Samples.args_no_db
               false Samples.backups Samples.photo Samples.world_photo).2 in
  fs w' !! Samples.photo = Some Samples.webp_bytes
  ∧ fs w' !! joinpath Samples.backups (name Samples.photo) = Some Samples.jpeg_bytes
  ∧ fs w' !! Samples.photo_temp = None
  ∧ converted_count (stats w') = S (converted_count (stats Samples.world_photo))
  ∧ failed_count (stats w') = failed_count (stats Samples.world_photo)
  ∧ total_saved (stats w')
    = (total_saved (stats Samples.world_photo)
       + (Z.of_nat (length Samples.jpeg_bytes)
          - Z.of_nat (length Samples.webp_bytes)))%Z.
Proof.
  apply (conversion_keeps_backup_and_removes_temp Samples.env_ok
           Samples.data_root Samples.args_no_db false Samples.backups
           Samples.photo Samples.jpeg_bytes Samples.webp_pixel
           Samples.webp_bytes Samples.photo_temp Samples.world_photo).
  - vm_compute. reflexivity.
  - discriminate.
  - discriminate.
  - vm_compute. reflexivity.
  - reflexivity.
  - reflexivity.
  - reflexivity.
  - reflexivity.
Defined.

(** The sample photo when the codec and the restoring move fail. *)
Lemma failed_restore_is_counted_twice_witness :
  let w' := (process_image Samples.env_restore_fails Samples.data_root
               Samples.args_no_db false Samples.backups Samples.photo
               Samples.world_photo).2 in
  failed_count (stats w') = failed_count (stats Samples.world_photo) + 2
  ∧ converted_count (stats w') = converted_count (stats Samples.world_photo)
  ∧ fs w' !! joinpath Samples.backups (name Samples.photo) = Some Samples.jpeg_bytes
  ∧ fs w' !! Samples.photo
    = Some (default Samples.jpeg_bytes (Some Samples.junk_bytes)).
Proof.
  apply (failed_restore_is_counted_twice Samples.env_restore_fails
           Samples.data_root Samples.args_no_db false Samples.backups
           Samples.photo Samples.jpeg_bytes (Some Samples.junk_bytes)
           Samples.world_photo).
  - vm_compute. reflexivity.
  - discriminate.
  - discriminate.
  - discriminate.
  - exact I.
  - reflexivity.
Defined.

(** A photo that is not in the sample world. *)
Lemma backup_failure_leaves_asset_untouched_witness :
  let w' := (process_image Samples.env_ok Samples.data_root Samples.args_no_db
               false Samples.backups Samples.photo2 Samples.world_photo).2 in
  fs w' = fs Samples.world_photo ∧ db w' = db Samples.world_photo
  ∧ failed_count (stats w') = S (failed_count (stats Samples.world_photo))
  ∧ converted_count (stats w') = converted_count (stats Samples.world_photo)
  ∧ trace w' =
    trace Samples.world_photo
    ++ [Log (LProcessing (name Samples.photo2));
        EvCopy Samples.photo2 (joinpath Samples.backups (name Samples.photo2));
        Log (LErrorProcessing Samples.photo2)].
Proof.
  apply (backup_failure_leaves_asset_untouched Samples.env_ok Samples.data_root
           Samples.args_no_db false Samples.backups Samples.photo2
           Samples.world_photo).
  - discriminate.
  - left. vm_compute. reflexivity.
Defined.

(** The sample photo when the encoder leaves a partial file. *)
Lemma failed_conversion_leaves_temp_file_witness :
  let w' := (process_image Samples.env_encoder_leaves_part Samples.data_root
               Samples.args_no_db false Samples.backups Samples.photo
               Samples.world_photo).2 in
  fs w' !! Samples.photo_temp = Some Samples.junk_bytes
  ∧ fs w' !! joinpath Samples.backups (name Samples.photo) = None
  ∧ fs w' !! Samples.photo = Some Samples.jpeg_bytes.
Proof.
  apply (failed_conversion_leaves_temp_file Samples.env_encoder_leaves_part
           Samples.data_root Samples.args_no_db false Samples.backups
           Samples.photo Samples.jpeg_bytes Samples.junk_bytes
           Samples.photo_temp Samples.world_photo).
  - vm_compute. reflexivity.
  - discriminate.
  - discriminate.
  - vm_compute. reflexivity.
  - eexists. reflexivity.
  - reflexivity.
  - reflexivity.
Defined.

Section SecondRun.
Context `{PIL} (env : Env) (root : Path) (args : Args) (conn : bool) (bdir : Path).

(** X12.  Processing a converted asset again, as a second run of the script
    does, overwrites its backup: after the first conversion the backup
    holds the original bytes, after the second it holds the output of the
    first, and the asset has been counted as converted both times. *)
Theorem second_run_overwrites_backup p content img out img2 out2 t w :
  fs w !! p = Some content →
  Str.lower (suffix p) ≠ ".webp" →
  joinpath bdir (name p) ≠ p →
  with_suffix p ".webp.tmp" = Some t →
  decode env content = Some img →
  encode env (Codec.normalize img) (quality args) WEBP_METHOD = Encoded out →
  decode env out = Some img2 →
  encode env (Codec.normalize img2) (quality args) WEBP_METHOD = Encoded out2 →
  move_fault env t p = None →
  rollback_fault env p = false →
  let w1 := (process_image env root args conn bdir p w).2 in
  let w2 := (process_image env root args conn bdir p w1).2 in
  fs w1 !! joinpath bdir (name p) = Some content
  ∧ fs w2 !! joinpath bdir (name p) = Some out
  ∧ fs w2 !! p = Some out2
  ∧ converted_count (stats w2) = converted_count (stats w) + 2.
Proof.
  intros Hp Hs Hbp Ht Hd He Hd2 He2 Hm Hrb. cbv zeta.
  destruct (conversion_run env root args conn bdir p content img out t w)
    as (Hp1 & Hb1 & _ & Hc1 & _); try done.
  destruct (conversion_run env root args conn bdir p out img2 out2 t
              (process_image env root args conn bdir p w).2)
    as (Hp2 & Hb2 & _ & Hc2 & _); try done.
  repeat split; try done. rewrite Hc2, Hc1. lia.
Qed.

End SecondRun.

(** The sample photo, converted twice. *)
Lemma second_run_overwrites_backup_witness :
  let w1 := (process_image Samples.env_ok Samples.data_root Samples.args_no_db
               false Samples.backups Samples.photo Samples.world_photo).2 in
  let w2 := (process_image Samples.env_ok Samples.data_root Samples.args_no_db
               false Samples.backups Samples.photo w1).2 in
  fs w1 !! joinpath Samples.backups (name Samples.photo) = Some Samples.jpeg_bytes
  ∧ fs w2 !! joinpath Samples.backups (name Samples.photo) = Some Samples.webp_bytes
  ∧ fs w2 !! Samples.photo = Some Samples.webp_bytes
  ∧ converted_count (stats w2) = converted_count (stats Samples.world_photo) + 2.
Proof.
  apply (second_run_overwrites_backup Samples.env_ok Samples.data_root
           Samples.args_no_db false Samples.backups Samples.photo
           Samples.jpeg_bytes Samples.webp_pixel Samples.webp_bytes
           Samples.webp_pixel Samples.webp_bytes Samples.photo_temp
           Samples.world_photo).
  - vm_compute. reflexivity.
  - discriminate.
  - discriminate.
  - vm_compute. reflexivity.
  - reflexivity.
  - reflexivity.
  - reflexivity.
  - reflexivity.
  - reflexivity.
  - reflexivity.
Defined.

(** ** The loop *)

Section LoopProperties.
Context `{PIL} (env : Env) (root : Path) (args : Args) (conn : bool) (bdir : Path).

Lemma process_all_nil w : (process_all env root args conn bdir [] w).2 = w.
Proof. done. Qed.

(** Every file is counted at most once as converted and at most twice as
    failed; a file that is not skipped is counted at least once. *)
Lemma process_all_counts files w :
  let s := stats w in
  let s' := stats (process_all env root args conn bdir files w).2 in
  converted_count s ≤ converted_count s' ≤ converted_count s + length files
  ∧ failed_count s ≤ failed_count s' ≤ failed_count s + 2 * length files
  ∧ converted_count s' + failed_count s'
    ≤ converted_count s + failed_count s + 2 * length files
  ∧ (Forall (λ p, Str.lower (suffix p) ≠ ".webp") files →
     converted_count s + failed_count s + length files
     ≤ converted_count s' + failed_count s').
Proof.
  cbv zeta.
  revert w. induction files as [|p rest IH]; intros w.
  - rewrite process_all_nil. simpl. lia.
  - rewrite process_all_cons.
    destruct (IH (process_image env root args conn bdir p w).2)
      as (Hc & Hf & Hs & Hall).
    destruct (process_image_accounting env root args conn bdir p w)
      as (Hcount & Hone & _).
    simpl length. repeat split; try lia.
    intros [Hp Hrest]%Forall_cons. specialize (Hall Hrest).
    specialize (Hone Hp). lia.
Qed.

(** Without a connection, or with [--skip-database], the loop leaves the
    store alone. *)
Lemma process_all_store_untouched files w :
  conn && negb (skip_database args) = false →
  let w' := (process_all env root args conn bdir files w).2 in
  db w' = db w ∧ txn w' = txn w
  ∧ ∃ evs, trace w' = trace w ++ evs
           ∧ Forall (λ e, is_db_call e = false) evs.
Proof.
  intros Hoff. cbv zeta. revert w. induction files as [|p rest IH]; intros w.
  - rewrite process_all_nil. repeat split. exists []. by rewrite app_nil_r.
  - rewrite process_all_cons.
    destruct (IH (process_image env root args conn bdir p w).2)
      as (Hdb & Htxn & evs2 & Htr & Hq2).
    destruct (process_image_accounting env root args conn bdir p w)
      as (_ & _ & (evs1 & Htr1 & _ & Hq1) & Hstore & _).
    destruct (Hstore Hoff) as (Hdb1 & Htxn1 & _).
    split; [congruence|]. split; [congruence|].
    exists (evs1 ++ evs2). rewrite Htr, Htr1, app_assoc. split; [done|].
    apply Forall_app. auto.
Qed.

Lemma update_row_kept_or_webp key (l : list Row) :
  Forall2 row_kept_or_webp l (update_row TARGET_MIME key <$> l).
Proof.
  induction l as [|r l IH]; simpl; constructor; [|done].
  unfold update_row, row_kept_or_webp. case_decide; simpl; auto.
Qed.

Lemma row_kept_or_webp_refl (l : list Row) : Forall2 row_kept_or_webp l l.
Proof. induction l; constructor; [|done]. by split; [|left]. Qed.

Lemma row_kept_or_webp_trans (l1 l2 l3 : list Row) :
  Forall2 row_kept_or_webp l1 l2 → Forall2 row_kept_or_webp l2 l3 →
  Forall2 row_kept_or_webp l1 l3.
Proof.
  intros H12. revert l3. induction H12 as [|r1 r2 l1 l2 [Hp Hm] _ IH];
    intros l3 H23; inversion H23 as [|? r3 ? l3' [Hp' Hm'] Hrest]; subst;
    constructor; [|by apply IH].
  split; [congruence|]. destruct Hm, Hm'; [left|right|right|right]; congruence.
Qed.

(** The loop keeps the rows of the store in place, in the table and in
    the open transaction. *)
Lemma process_all_rows (rows : list Row) files w :
  Forall2 row_kept_or_webp rows (db w) →
  Forall2 row_kept_or_webp rows (txn w) →
  let w' := (process_all env root args conn bdir files w).2 in
  Forall2 row_kept_or_webp rows (db w') ∧ Forall2 row_kept_or_webp rows (txn w').
Proof.
  cbv zeta. revert w. induction files as [|p rest IH]; intros w Hdb Htxn.
  - by rewrite process_all_nil.
  - rewrite process_all_cons.
    destruct (process_image_accounting env root args conn bdir p w)
      as (_ & _ & _ & _ & Hdb1 & Htxn1).
    apply IH.
    + destruct Hdb1 as [->|[key ->]]; [done|].
      eapply row_kept_or_webp_trans; [exact Htxn|apply update_row_kept_or_webp].
    + destruct Htxn1 as [->|[->|[key ->]]]; [done|done|].
      eapply row_kept_or_webp_trans; [exact Htxn|apply update_row_kept_or_webp].
Qed.

(** Files that are neither listed, nor a backup path, nor a temporary path
    of a listed file keep their content. *)
Lemma process_all_frame files q w :
  Forall (λ p, q ≠ p ∧ q ≠ joinpath bdir (name p)
               ∧ with_suffix p ".webp.tmp" ≠ Some q) files →
  fs (process_all env root args conn bdir files w).2 !! q = fs w !! q.
Proof.
  revert w. induction files as [|p rest IH]; intros w Hall; [done|].
  apply Forall_cons in Hall as [(Hp & Hb & Ht) Hrest].
  rewrite process_all_cons, IH by done.
  by apply (process_image_files env root args conn bdir p w).
Qed.

(** On files that do not end in [.webp] the loop never skips. *)
Lemma process_all_never_skips files w :
  Forall (λ p, Str.lower (suffix p) ≠ ".webp") files →
  ∃ evs,
    trace (process_all env root args conn bdir files w).2 = trace w ++ evs
    ∧ Log LAlreadyWebp ∉ evs.
Proof.
  revert w. induction files as [|p rest IH]; intros w Hall.
  - exists []. rewrite process_all_nil, app_nil_r. split; [done|apply not_elem_of_nil].
  - apply Forall_cons in Hall as [Hp Hrest].
    rewrite process_all_cons.
    destruct (IH (process_image env root args conn bdir p w).2 Hrest)
      as (evs2 & Htr & Hn2).
    destruct (process_image_accounting env root args conn bdir p w)
      as (_ & _ & (evs1 & Htr1 & Hn1 & _) & _).
    exists (evs1 ++ evs2). rewrite Htr, Htr1, app_assoc. split; [done|].
    rewrite elem_of_app. intros [?|?]; [by apply Hn1|done].
Qed.

End LoopProperties.

(** ** The analysis *)

Section AnalysisProperties.
Context `{PIL} (env : Env).

Lemma analyze_from_cons_some p rest total counts w b :
  fs w !! p = Some b →
  analyze_from env (p :: rest) total counts w
  = analyze_from env rest (total + length b)
      (<[format_of env p b := default 0 (counts !! format_of env p b) + 1]> counts) w.
Proof. intros Hp. simpl. unfold bindM, gets. simpl. by rewrite Hp. Qed.

Lemma analyze_from_cons_none p rest total counts w :
  fs w !! p = None →
  analyze_from env (p :: rest) total counts w
  = analyze_from env rest total counts (add_event (Log (LCouldNotAnalyze p)) w).
Proof. intros Hp. simpl. unfold bindM, gets. simpl. by rewrite Hp. Qed.

(** The loop of [analyze_images], from any accumulators. *)
Lemma analyze_from_result files total counts w :
  ∃ counts',
    analyze_from env files total counts w
    = (Ok (total + sum_list ((λ p, default 0 (length <$> fs w !! p)) <$> files),
           counts'),
       add_events ((λ p, Log (LCouldNotAnalyze p))
                   <$> List.filter (λ p, bool_decide (fs w !! p = None)) files) w)
    ∧ ∀ fmt,
        default 0 (counts' !! fmt)
        = default 0 (counts !! fmt)
          + length (List.filter
                      (λ p, match fs w !! p with
                            | Some b => bool_decide (format_of env p b = fmt)
                            | None => false
                            end) files).
Proof.
  revert total counts w. induction files as [|p rest IH]; intros total counts w.
  - exists counts. simpl. rewrite add_events_nil, Nat.add_0_r.
    split; [done|]. intros fmt. lia.
  - cbn [List.filter fmap list_fmap sum_list sum_list_with].
    destruct (fs w !! p) as [b|] eqn:Hp.
    + rewrite (analyze_from_cons_some p rest total counts w b Hp).
      destruct (IH (total + length b)
                  (<[format_of env p b := default 0 (counts !! format_of env p b) + 1]>
                     counts) w) as (counts' & -> & Hc).
      exists counts'. rewrite bool_decide_false by done.
      split; [by rewrite Nat.add_assoc|].
      intros fmt. rewrite Hc. case_bool_decide as Hfmt.
      * subst fmt. rewrite lookup_insert_eq. simpl. lia.
      * by rewrite lookup_insert_ne.
    + rewrite (analyze_from_cons_none p rest total counts w Hp).
      destruct (IH total counts (add_event (Log (LCouldNotAnalyze p)) w))
        as (counts' & Hrun & Hc).
      change (fs (add_event (Log (LCouldNotAnalyze p)) w)) with (fs w) in Hrun, Hc.
      exists counts'. rewrite bool_decide_true by done.
      rewrite fmap_cons, <-add_events_cons. split; [|exact Hc].
      rewrite Hrun. simpl. by rewrite ?Nat.add_0_l.
Qed.

(** X13.  [analyze_images] returns the sum of the sizes of the files it
    can read and, for each format, the number of readable files of that
    format; it logs a warning for each unreadable file, in order, and
    changes nothing else. *)
Theorem analyze_images_result files w :
  ∃ counts,
    analyze_images env files w
    = (Ok (sum_list ((λ p, default 0 (length <$> fs w !! p)) <$> files), counts),
       add_events ((λ p, Log (LCouldNotAnalyze p))
                   <$> List.filter (λ p, bool_decide (fs w !! p = None)) files) w)
    ∧ ∀ fmt,
        default 0 (counts !! fmt)
        = length (List.filter
                    (λ p, match fs w !! p with
                          | Some b => bool_decide (format_of env p b = fmt)
                          | None => false
                          end) files).
Proof.
  destruct (analyze_from_result files 0 ∅ w) as (counts & Hrun & Hc).
  exists counts. split; [exact Hrun|]. intros fmt. by rewrite Hc, lookup_empty.
Qed.

End AnalysisProperties.

Section ConnectionLoop.
Context `{PIL} (env : Env) (root : Path) (args : Args) (conn : bool) (bdir : Path).

(** The loop body neither opens nor closes a connection, and it makes no
    call of the set-up. *)
Lemma process_image_keeps_connection p w :
  ∃ evs,
    trace (process_image env root args conn bdir p w).2 = trace w ++ evs
    ∧ (EvConnect ∉ evs) ∧ (EvClose ∉ evs)
    ∧ Forall (λ e, is_setup_call e = false) evs.
Proof.
  run_script. simpl.
  repeat (case_match; simplify_eq/=);
    eexists; rewrite <-?app_assoc; (split; [reflexivity|]);
    (split; [not_in_list|]); (split; [not_in_list|]); by repeat constructor.
Qed.

(** Nor does the loop. *)
Lemma process_all_keeps_connection files w :
  ∃ evs,
    trace (process_all env root args conn bdir files w).2 = trace w ++ evs
    ∧ (EvConnect ∉ evs) ∧ (EvClose ∉ evs)
    ∧ Forall (λ e, is_setup_call e = false) evs.
Proof.
  revert w. induction files as [|p rest IH]; intros w.
  - exists []. rewrite process_all_nil, app_nil_r.
    split; [done|]. split; [apply not_elem_of_nil|].
    split; [apply not_elem_of_nil|constructor].
  - rewrite process_all_cons.
    destruct (IH (process_image env root args conn bdir p w).2)
      as (evs2 & -> & Hc2 & Hd2 & Hs2).
    destruct (process_image_keeps_connection p w) as (evs1 & -> & Hc1 & Hd1 & Hs1).
    exists (evs1 ++ evs2). rewrite app_assoc. split; [done|].
    rewrite !elem_of_app. split; [tauto|]. split; [tauto|].
    by apply Forall_app.
Qed.

End ConnectionLoop.

(** ** The run as a whole, again *)

Lemma is_log_not_db_call e : is_log e = true → is_db_call e = false.
Proof. by destruct e. Qed.

Lemma stats_add_events evs w : stats (add_events evs w) = stats w.
Proof. done. Qed.

Lemma is_note_not_setup_call e : is_note e = true → is_setup_call e = false.
Proof. by destruct e. Qed.

Lemma not_setup_call e q :
  is_setup_call e = false → e ≠ EvOpenLog q ∧ e ≠ EvMkdir q.
Proof. intros He. split; intros ->; done. Qed.

Lemma summary_events_not_setup_calls conn (d : Path) (s : Stats) :
  Forall (λ e, is_setup_call e = false) (summary_events conn d s).
Proof.
  unfold summary_events.
  destruct conn, (0 <? converted_count s); by repeat constructor.
Qed.

Section RunProperties.
Context `{PIL} (env : Env) (root : Path) (args : Args).

(** Discovered files lie below the data path and do not end in [.webp]. *)
Lemma discovered_files d w files :
  (find_image_files env d w).1 = Ok files →
  Forall (λ p, below d p = true ∧ Str.lower (suffix p) ≠ ".webp") files.
Proof.
  unfold find_image_files, gets. simpl. intros [= <-].
  apply Forall_forall. intros p Hp.
  apply list_elem_of_In, filter_In in Hp as [_ [Hb Hi]%andb_prop].
  split; [done|]. by apply (discovered_not_webp env (fs w)).
Qed.

Lemma summary_events_logs (d : Path) (s : Stats) :
  Forall (λ e, is_log e = true) (summary_events false d s).
Proof.
  unfold summary_events. destruct (0 <? converted_count s); by repeat constructor.
Qed.

(** X14.  The loop goes through all its files, whatever happened to the
    earlier ones: processing two lists in a row is processing the second
    from where the first has ended, so that no failure ends the loop. *)
Theorem process_all_app conn bdir files1 files2 w :
  process_all env root args conn bdir (files1 ++ files2) w
  = process_all env root args conn bdir files2
      (process_all env root args conn bdir files1 w).2.
Proof.
  rewrite (process_all_run env root args conn bdir (files1 ++ files2)).
  rewrite (process_all_run env root args conn bdir files2). f_equal.
  revert w. induction files1 as [|p rest IH]; intros w; [done|].
  change ((p :: rest) ++ files2) with (p :: (rest ++ files2)).
  rewrite !process_all_cons. apply IH.
Qed.

(** X15.  On the files that [find_image_files] returns, the loop never
    takes its Already-WebP branch: discovery yields no [.webp] files. *)
Theorem discovered_files_are_never_skipped conn bdir d w0 files w :
  (find_image_files env d w0).1 = Ok files →
  ∃ evs,
    trace (process_all env root args conn bdir files w).2 = trace w ++ evs
    ∧ Log LAlreadyWebp ∉ evs.
Proof.
  intros Hf. apply process_all_never_skips.
  eapply Forall_impl; [exact (discovered_files _ _ _ Hf)|]. by intros p [_ ?].
Qed.


(** X17.  With [--skip-database] a run makes no database call at all, not
    even a connection attempt, and leaves the store as it is. *)
Theorem skip_database_never_touches_store w :
  skip_database args = true →
  let w' := (main env root args w).2 in
  db w' = db w ∧ txn w' = txn w
  ∧ ∃ evs, trace w' = trace w ++ evs
           ∧ Forall (λ e, is_db_call e = false) evs.
Proof.
  intros Hskip. cbv zeta.
  destruct (main_run env root args w) as (files & Hf & Hrun). cbv zeta in Hrun.
  set (bdir := default (mkPath false ["backups"]) (backup_dir_arg args)) in *.
  destruct Hrun as [Hraise|[Hearly|Hloop]].
  - destruct Hraise as (e & evs & -> & [(_ & _ & ->)|(_ & _ & ->)]);
      (split; [done|]); (split; [done|]); eexists; (split; [done|]);
      by repeat constructor.
  - destruct Hearly as (_ & _ & evs & -> & _ & Hnotes & _).
    split; [done|]. split; [done|].
    exists (setup_events env bdir ++ evs). split; [done|].
    apply Forall_app. split; [by repeat constructor|].
    eapply Forall_impl; [apply Hnotes; by left|].
    intros x Hx. by apply is_log_not_db_call, is_note_log.
  - destruct Hloop as (_ & _ & _ & _ & _ & evs & Hnotes & Hm).
    rewrite Hskip in Hm. simpl negb in Hm. rewrite Hm.
    destruct (process_all_store_untouched env root args false bdir
                files (loop_start false (setup_events env bdir ++ evs) w) eq_refl)
      as (Hdb & Htxn & evs2 & Htr & Hq).
    unfold add_events at 1 2 3. cbn [snd db txn trace]. rewrite Hdb, Htxn, Htr.
    split; [done|]. split; [done|].
    exists ((setup_events env bdir ++ evs) ++ evs2
            ++ summary_events false bdir
                 (stats (process_all env root args false bdir files
                           (loop_start false (setup_events env bdir ++ evs) w)).2)).
    split.
    { unfold loop_start, add_events. cbn [trace set_stats].
      by rewrite <-!app_assoc. }
    apply Forall_app. split.
    { apply Forall_app. split; [by repeat constructor|].
      eapply Forall_impl; [exact Hnotes|].
      intros x Hx. by apply is_log_not_db_call, is_note_log. }
    apply Forall_app. split; [done|].
    eapply Forall_impl; [apply summary_events_logs|]. apply is_log_not_db_call.
Qed.

(** X18.  A run never adds, removes or reorders a row of the store and
    never changes a path: each row keeps its type or has it set to
    [image/webp]. *)
Theorem main_keeps_rows w :
  Forall2 row_kept_or_webp (db w) (db (main env root args w).2).
Proof.
  destruct (main_run env root args w) as (files & Hf & Hrun). cbv zeta in Hrun.
  set (bdir := default (mkPath false ["backups"]) (backup_dir_arg args)) in *.
  destruct Hrun as [Hraise|[Hearly|Hloop]].
  - destruct Hraise as (e & evs & -> & _). apply row_kept_or_webp_refl.
  - destruct Hearly as (_ & _ & evs & -> & _). apply row_kept_or_webp_refl.
  - destruct Hloop as (_ & _ & _ & _ & _ & evs & Hnotes & Hm).
    rewrite Hm. unfold add_events at 1. cbn [snd db].
    destruct (skip_database args); simpl negb.
    + destruct (process_all_store_untouched env root args false bdir
                  files (loop_start false (setup_events env bdir ++ evs) w)
                  eq_refl) as (-> & _).
      apply row_kept_or_webp_refl.
    + by destruct (process_all_rows env root args true bdir (db w)
                     files (loop_start true (setup_events env bdir ++ evs) w)
                     (row_kept_or_webp_refl _) (row_kept_or_webp_refl _))
        as (Hrows & _).
Qed.

(** X19.  Take a path that is not below the scanned data path, is not the
    backup directory nor directly in it, and is not the log file of the
    run, which [setup_logging] opens in the current directory.  A run
    leaves the file at that path alone, and it neither opens a log file
    nor makes a directory there. *)
Theorem main_frame q w :
  below (default root (data_path_arg args)) q = false →
  q ≠ default (mkPath false ["backups"]) (backup_dir_arg args) →
  removelast (parts q)
  ≠ parts (default (mkPath false ["backups"]) (backup_dir_arg args)) →
  q ≠ log_file env →
  let w' := (main env root args w).2 in
  fs w' !! q = fs w !! q
  ∧ ∃ evs, trace w' = trace w ++ evs
           ∧ (EvOpenLog q ∉ evs) ∧ (EvMkdir q ∉ evs).
Proof.
  intros Hout Hq1 Hq2 Hlog. cbv zeta.
  cut (fs (main env root args w).2 !! q = fs w !! q
       ∧ ∃ evs, trace (main env root args w).2 = trace w ++ evs
                ∧ Forall (λ e, e ≠ EvOpenLog q ∧ e ≠ EvMkdir q) evs).
  { intros (Hfs & evs & Htr & Hall). split; [done|]. exists evs. split; [done|].
    rewrite Forall_forall in Hall. split; intros Hin; by destruct (Hall _ Hin). }
  destruct (main_run env root args w) as (files & Hf & Hrun). cbv zeta in Hrun.
  set (bdir := default (mkPath false ["backups"]) (backup_dir_arg args)) in *.
  assert (Forall (λ e, e ≠ EvOpenLog q ∧ e ≠ EvMkdir q) (setup_events env bdir))
    as Hsetup.
  { unfold setup_events.
    repeat (apply Forall_cons; split; [split; congruence|]). constructor. }
  destruct Hrun as [Hraise|[Hearly|Hloop]].
  - destruct Hraise as (e & evs & -> & [(_ & _ & ->)|(_ & _ & ->)]);
      (split; [done|]); eexists; (split; [done|]); [|done].
    apply Forall_cons. split; [split; congruence|constructor].
  - destruct Hearly as (_ & _ & evs & -> & Hevs & _). split; [done|].
    exists (setup_events env bdir ++ evs). split; [done|].
    apply Forall_app. split; [done|].
    eapply Forall_impl; [exact Hevs|].
    intros x [Hx| ->]; [|by split].
    by apply not_setup_call, is_note_not_setup_call.
  - destruct Hloop as (_ & _ & _ & _ & _ & evs & Hnotes & Hm).
    rewrite Hm. clear Hm. unfold add_events at 1 2. cbn [snd fs trace].
    split.
    { rewrite process_all_frame; [by destruct (skip_database args)|].
      eapply Forall_impl; [exact (discovered_files _ _ _ Hf)|].
      intros p [Hb _]. simpl. split; [congruence|]. split.
      + intros [?|?]%joinpath_inside; done.
      + intros Ht. apply (below_with_suffix _ _ _ _ Ht) in Hb. congruence. }
    set (conn := negb (skip_database args)).
    destruct (process_all_keeps_connection env root args conn bdir files
                (loop_start conn (setup_events env bdir ++ evs) w))
      as (evs2 & Htr & _ & _ & Hs2).
    rewrite Htr.
    exists ((setup_events env bdir ++ evs)
            ++ (if conn then [EvConnect] else [])
            ++ evs2
            ++ summary_events conn bdir
                 (stats (process_all env root args conn bdir files
                           (loop_start conn (setup_events env bdir ++ evs) w)).2)).
    split.
    { destruct conn; unfold loop_start, add_events, add_event;
        cbn [trace set_stats set_txn]; rewrite <-!app_assoc; reflexivity. }
    apply Forall_app. split.
    { apply Forall_app. split; [done|].
      eapply Forall_impl; [exact Hnotes|].
      intros x Hx. by apply not_setup_call, is_note_not_setup_call. }
    apply Forall_app. split; [by destruct conn; repeat constructor|].
    apply Forall_app. split.
    + eapply Forall_impl; [exact Hs2|]. intros x Hx. by apply not_setup_call.
    + eapply Forall_impl; [apply summary_events_not_setup_calls|].
      intros x Hx. by apply not_setup_call.
Qed.

(** X20.  In a run that reaches the loop with [n] discovered files, none
    is skipped: each is counted as converted or as failed, at most [n] are
    converted, and converted and failed together are at most [2 n], a file
    being counted as failed twice at most.  A run reaches the loop when its
    set-up does not raise, it is not a dry run, and the connection is there
    or not asked for. *)
Theorem main_counts files w :
  (find_image_files env (default root (data_path_arg args)) w).1 = Ok files →
  files ≠ [] →
  dry_run args = false →
  skip_database args = true ∨ connect_ok env = true →
  logging_fault env = false →
  mkdir_fault env (default (mkPath false ["backups"]) (backup_dir_arg args)) = None →
  let s := stats (main env root args w).2 in
  converted_count s ≤ length files
  ∧ length files ≤ converted_count s + failed_count s
  ∧ converted_count s + failed_count s ≤ 2 * length files.
Proof.
  intros Hf Hne Hdry Hconn Hlf Hmk. cbv zeta.
  destruct (main_run env root args w) as (files' & Hf' & Hrun). cbv zeta in Hrun.
  set (bdir := default (mkPath false ["backups"]) (backup_dir_arg args)) in *.
  destruct Hrun as [Hraise|[Hearly|Hloop]].
  - destruct Hraise as (e & evs & _ & [(? & _)|(_ & ? & _)]); congruence.
  - destruct Hearly as (_ & _ & evs & _ & _ & _ & [?|[?|[? ?]]]);
      [congruence|congruence|destruct Hconn; congruence].
  - assert (files' = files) as -> by congruence.
    destruct Hloop as (_ & _ & _ & _ & _ & evs & Hnotes & Hm).
    rewrite Hm. cbn [snd]. rewrite !stats_add_events.
    destruct (process_all_counts env root args (negb (skip_database args))
                bdir files
                (loop_start (negb (skip_database args))
                   (setup_events env bdir ++ evs) w))
      as (Hc & _ & Hs & Hall).
    assert (Forall (λ p, Str.lower (suffix p) ≠ ".webp") files) as Hnw.
    { eapply Forall_impl; [exact (discovered_files _ _ _ Hf)|]. by intros p [_ ?]. }
    specialize (Hall Hnw).
    assert (stats (loop_start (negb (skip_database args))
                     (setup_events env bdir ++ evs) w) = mkStats 0 0 0) as Hzero
      by (by destruct (skip_database args)).
    rewrite Hzero in Hc, Hs, Hall. cbv zeta in Hc, Hs, Hall.
    cbn [converted_count failed_count] in Hc, Hs, Hall. lia.
Qed.


End RunProperties.

(** The loop over the photo discovered in the sample world. *)
Lemma discovered_files_are_never_skipped_witness :
  ∃ evs,
    trace (process_all Samples.env_ok Samples.data_root Samples.args_no_db false
             Samples.backups [Samples.photo] Samples.world_photo).2
    = trace Samples.world_photo ++ evs
    ∧ Log LAlreadyWebp ∉ evs.
Proof.
  apply (discovered_files_are_never_skipped Samples.env_ok Samples.data_root
           Samples.args_no_db false Samples.backups Samples.data_root
           Samples.world_photo [Samples.photo] Samples.world_photo).
  vm_compute. reflexivity.
Defined.


(** A run with [--skip-database] on the sample world with a row. *)
Lemma skip_database_never_touches_store_witness :
  let w' := (main Samples.env_ok Samples.data_root Samples.args_no_db
               Samples.world_photo_row).2 in
  db w' = db Samples.world_photo_row ∧ txn w' = txn Samples.world_photo_row
  ∧ ∃ evs, trace w' = trace Samples.world_photo_row ++ evs
           ∧ Forall (λ e, is_db_call e = false) evs.
Proof.
  apply (skip_database_never_touches_store Samples.env_ok Samples.data_root
           Samples.args_no_db Samples.world_photo_row).
  reflexivity.
Defined.

(** A photo outside the data root, during a run. *)
Lemma main_frame_witness :
  fs (main Samples.env_ok Samples.data_root Samples.args_no_db
        (Samples.world_of [(Samples.photo, Samples.jpeg_bytes);
                           (Samples.moved_photo, Samples.jpeg_bytes')] [])).2
    !! Samples.moved_photo
  = fs (Samples.world_of [(Samples.photo, Samples.jpeg_bytes);
                          (Samples.moved_photo, Samples.jpeg_bytes')] [])
      !! Samples.moved_photo.
Proof.
  destruct (main_frame Samples.env_ok Samples.data_root Samples.args_no_db
              Samples.moved_photo
              (Samples.world_of [(Samples.photo, Samples.jpeg_bytes);
                                 (Samples.moved_photo, Samples.jpeg_bytes')] []))
    as [Hfs _].
  - reflexivity.
  - discriminate.
  - discriminate.
  - discriminate.
  - exact Hfs.
Defined.

(** A run over the sample world with one photo. *)
Lemma main_counts_witness :
  let s := stats (main Samples.env_ok Samples.data_root Samples.args_no_db
                    Samples.world_photo).2 in
  converted_count s ≤ length [Samples.photo]
  ∧ length [Samples.photo] ≤ converted_count s + failed_count s
  ∧ converted_count s + failed_count s ≤ 2 * length [Samples.photo].
Proof.
  apply (main_counts Samples.env_ok Samples.data_root Samples.args_no_db
           [Samples.photo] Samples.world_photo).
  - vm_compute. reflexivity.
  - discriminate.
  - reflexivity.
  - left. reflexivity.
  - reflexivity.
  - reflexivity.
Defined.

Section DiscoveredUpdate.
Context `{PIL} (env : Env) (root : Path).

(** X22.  When the scanned directory is [HOMEBOX_DATA_PATH], the metadata
    update of a discovered file never fails on [relative_to]: the file has
    a path relative to the root, and the update, once it has its cursor,
    executes its statement with the key [data/] followed by that path,
    whatever happens to the statement, the commit and the rollback
    afterwards. *)
Theorem discovered_file_has_store_key w files p mime w1 :
  (find_image_files env root w).1 = Ok files →
  p ∈ files →
  cursor_fault env p = false →
  ∃ rel,
    relative_to p root = Some rel
    ∧ parts p = parts root ++ parts rel
    ∧ EvExecute mime ("data/" +:+ str rel)
      ∈ trace (update_database_mime_type env root p mime w1).2.
Proof.
  intros Hf Hp Hcur.
  pose proof (discovered_files env root w files Hf) as Hall.
  rewrite Forall_forall in Hall. destruct (Hall p Hp) as [Hb _].
  destruct (file_below_root_has_relative_path root p Hb)
    as (rel & Hrel & _ & Hparts & _).
  exists rel. split; [done|]. split; [done|].
  run_script. simpl. rewrite Hcur, Hrel. simpl.
  destruct (db_fault env ("data/" +:+ str rel)) as [[]|]; simpl;
    destruct (rollback_fault env p); simpl;
    rewrite <-?app_assoc; apply elem_of_app; right; apply list_elem_of_here.
Qed.

End DiscoveredUpdate.

(** The sample photo, updated in a store whose statements fail. *)
Lemma discovered_file_has_store_key_witness :
  ∃ rel,
    relative_to Samples.photo Samples.data_root = Some rel
    ∧ parts Samples.photo = parts Samples.data_root ++ parts rel
    ∧ EvExecute "image/webp" ("data/" +:+ str rel)
      ∈ trace (update_database_mime_type Samples.env_db_error Samples.data_root
                 Samples.photo "image/webp" Samples.world_photo_row).2.
Proof.
  apply (discovered_file_has_store_key Samples.env_db_error Samples.data_root
           Samples.world_photo [Samples.photo]).
  - vm_compute. reflexivity.
  - apply list_elem_of_here.
  - reflexivity.
Defined.

Section ConnectionProperties.
Context `{PIL} (env : Env) (root : Path) (args : Args).

(** X23.  A run that connects to the database closes the connection: after
    the three events of the set-up the trace holds one [connect], before
    the loop, and one [close], after it, whatever has failed in between,
    and after the [close] there are log lines only. *)
Theorem connection_is_closed files w :
  (find_image_files env (default root (data_path_arg args)) w).1 = Ok files →
  files ≠ [] →
  dry_run args = false →
  skip_database args = false →
  connect_ok env = true →
  logging_fault env = false →
  mkdir_fault env (default (mkPath false ["backups"]) (backup_dir_arg args)) = None →
  let bdir := default (mkPath false ["backups"]) (backup_dir_arg args) in
  ∃ evs_pre evs_loop evs_post,
    trace (main env root args w).2
    = trace w ++ setup_events env bdir
      ++ evs_pre ++ [EvConnect] ++ evs_loop ++ [EvClose] ++ evs_post
    ∧ Forall (λ e, is_log e = true) evs_pre
    ∧ (EvConnect ∉ evs_loop) ∧ (EvClose ∉ evs_loop)
    ∧ Forall (λ e, is_log e = true) evs_post.
Proof.
  intros Hf Hne Hdry Hskip Hc Hlf Hmk. cbv zeta.
  destruct (main_run env root args w) as (files' & Hf' & Hrun). cbv zeta in Hrun.
  set (bdir := default (mkPath false ["backups"]) (backup_dir_arg args)) in *.
  destruct Hrun as [Hraise|[Hearly|Hloop]].
  - destruct Hraise as (e & evs & _ & [(? & _)|(_ & ? & _)]); congruence.
  - destruct Hearly as (_ & _ & evs & _ & _ & _ & [?|[?|[? ?]]]); congruence.
  - destruct Hloop as (_ & _ & _ & _ & _ & evs & Hnotes & Hm).
    rewrite Hskip in Hm. simpl negb in Hm. rewrite Hm.
    destruct (process_all_keeps_connection env root args true bdir
                files' (loop_start true (setup_events env bdir ++ evs) w))
      as (evs2 & Htr & Hc2 & Hd2 & _).
    exists evs, evs2. eexists.
    split; [|split; [|split; [exact Hc2|split; [exact Hd2|]]]].
    + unfold add_events at 1. cbn [snd trace].
      etrans; [apply (f_equal (λ l, l ++ _)), Htr|]. cbv beta.
      unfold summary_events, loop_start, add_events, add_event.
      cbn [trace set_stats set_txn]. rewrite <-!app_assoc. reflexivity.
    + eapply Forall_impl; [exact Hnotes|apply is_note_log].
    + simpl. match goal with |- context [0 <? ?n] => destruct (0 <? n) end;
        by repeat constructor.
Qed.

End ConnectionProperties.

(** A run on the sample world with a row. *)
Lemma connection_is_closed_witness :
  ∃ evs_pre evs_loop evs_post,
    trace (main Samples.env_ok Samples.data_root Samples.args_default
             Samples.world_photo_row).2
    = trace Samples.world_photo_row
      ++ setup_events Samples.env_ok Samples.backups
      ++ evs_pre ++ [EvConnect] ++ evs_loop ++ [EvClose] ++ evs_post
    ∧ Forall (λ e, is_log e = true) evs_pre
    ∧ (EvConnect ∉ evs_loop) ∧ (EvClose ∉ evs_loop)
    ∧ Forall (λ e, is_log e = true) evs_post.
Proof.
  apply (connection_is_closed Samples.env_ok Samples.data_root
           Samples.args_default [Samples.photo] Samples.world_photo_row).
  - vm_compute. reflexivity.
  - discriminate.
  - reflexivity.
  - reflexivity.
  - reflexivity.
  - reflexivity.
  - reflexivity.
Defined.
